(** * Tiered cache of status-im/proxy-common: entry model, backends, orchestrator

    A shallow embedding of [models/cache.go], [cache/l1/bigcache.go],
    [cache/l2/keydb.go], [cache/noop] and [cache/multi], with the properties
    of the tiered cache design proved against it.

    Conventions of the embedding:
    - Go's [int64] and [time.Duration] values are integers of [Z]; every
      arithmetic operation of the source is followed by [int64_wrap], the
      two's complement wrap-around of the machine.
    - [time.Now().Unix()] is an explicit argument [now] of every operation
      that reads the clock; one operation reads one instant.
    - A Go result pair of an entry pointer and a flag is
      [option CacheEntry * bool]; the nil pointer is [None].
    - Stateful receivers are passed and returned explicitly. *)

From stdpp Require Import gmap strings list fin_maps pretty.
From Stdlib Require Import ZArith Lia.
From Stdlib.Strings Require Import Byte.

Open Scope Z_scope.

(** ** Machine integers *)

Definition int64_wrap (z : Z) : Z := (z + 2 ^ 63) mod 2 ^ 64 - 2 ^ 63.

Definition int64_min : Z := - 2 ^ 63.
Definition int64_max : Z := 2 ^ 63 - 1.

Definition is_int64 (z : Z) : Prop := int64_min ≤ z ≤ int64_max.

(** [time.Second], in nanoseconds. *)
Definition Second : Z := 1000000000.

(** The longest span, in whole seconds, that a [time.Duration] can hold. *)
Definition MaxDurationSeconds : Z := 9223372036.

Module models.

(** [type TTL struct { Fresh, Stale time.Duration }], nanoseconds. *)
Record TTL := mkTTL { Fresh : Z; Stale : Z }.

(** [type CacheEntry struct]. *)
Record CacheEntry := mkEntry {
  Data : list Byte.byte;
  ExpiresAt : Z;
  StaleAt : Z;
  CreatedAt : Z
}.

Definition CacheLevel := string.

Definition CacheLevelL1 : CacheLevel := "L1".
Definition CacheLevelL2 : CacheLevel := "L2".
Definition CacheLevelMiss : CacheLevel := "MISS".

(** [CacheLevelFromIndex]; [fmt.Sprintf("L%d", index+1)] is the decimal
    rendering of the wrapped sum. *)
Definition CacheLevelFromIndex (index : Z) : CacheLevel :=
  if index <? 0 then CacheLevelL1
  else match index with
       | 0 => CacheLevelL1
       | 1 => CacheLevelL2
       | _ => String.append "L" (pretty (int64_wrap (index + 1)))
       end.

(** [type CacheResult struct]. *)
Record CacheResult := mkResult {
  Entry : option CacheEntry;
  Found : bool;
  Level : CacheLevel
}.

(** [CacheEntry.IsExpired]: [now > ce.ExpiresAt]. *)
Definition IsExpired (ce : CacheEntry) (now : Z) : bool := ExpiresAt ce <? now.

(** [CacheEntry.IsFresh]: [now <= ce.StaleAt]. *)
Definition IsFresh (ce : CacheEntry) (now : Z) : bool := now <=? StaleAt ce.

(** [CacheEntry.RemainingTTL]. *)
Definition RemainingTTL (ce : CacheEntry) (now : Z) : TTL :=
  let freshRemaining := int64_wrap (StaleAt ce - now) in
  let freshRemaining := if freshRemaining <? 0 then 0 else freshRemaining in
  let staleRemaining := int64_wrap (ExpiresAt ce - StaleAt ce) in
  let staleRemaining := if staleRemaining <? 0 then 0 else staleRemaining in
  {| Fresh := int64_wrap (freshRemaining * Second);
     Stale := int64_wrap (staleRemaining * Second) |}.

End models.

Import models.

(** ** Collaborators outside the repository

    The cache calls into Go's standard library for the stored record format
    and for the conversion of a duration to whole seconds.  Both are taken
    as interfaces; the laws a development relies on are separate classes. *)

(** [json.Marshal] and [json.Unmarshal] at type [CacheEntry]; [None] is a
    non-nil [error]. *)
Class Codec := {
  Marshal : CacheEntry → option (list Byte.byte);
  Unmarshal : list Byte.byte → option CacheEntry
}.

Class CodecLaws `{Codec} : Prop := {
  unmarshal_marshal :
    ∀ ce data, Marshal ce = Some data → Unmarshal data = Some ce
}.

(** [int64(d.Seconds())] for a [time.Duration] [d]: the float64 count of
    seconds of [time.Duration.Seconds], truncated by the conversion. *)
Class DurationSeconds := { SecondsInt64 : Z → Z }.

Class DurationSecondsLaws `{DurationSeconds} : Prop := {
  seconds_whole :
    ∀ s, - MaxDurationSeconds ≤ s ≤ MaxDurationSeconds →
         SecondsInt64 (s * Second) = s;
  seconds_range :
    ∀ d, is_int64 d →
         - (MaxDurationSeconds + 1) ≤ SecondsInt64 d ≤ MaxDurationSeconds + 1;
  seconds_nonneg : ∀ d, 0 ≤ d → 0 ≤ SecondsInt64 d
}.

Module cache.

(** What the [Logger] and [MetricsRecorder] collaborators of a backend
    receive, in call order. *)
Inductive Report :=
  | LogDebug (msg : string)
  | LogWarn (msg key : string)
  | LogError (msg key : string)
  | RecordCacheError (level kind : string).

(** [type Cache interface] over a receiver of type [S]; [Set_] is the
    method [Set]. *)
Class Cache (S : Type) := {
  Get : Z → string → S → (option CacheEntry * bool) * S;
  GetStale : Z → string → S → (option CacheEntry * bool) * S;
  Set_ : Z → string → list Byte.byte → TTL → S → S;
  Delete : string → S → S
}.

(** [type KeyDbClient interface] over a connection of type [C].  A
    [StringCmd] result is [RedisNil] (the [redis.Nil] error), [RedisErr]
    (any other error) or the stored string; a status or integer command
    yields [true] when its [Err()] is nil. *)
Inductive StringCmd :=
  | RedisNil
  | RedisErr
  | RedisData (data : list Byte.byte).

Class KeyDbClient (C : Type) := {
  ClientGet : string → C → StringCmd * C;
  ClientSet : string → list Byte.byte → Z → C → bool * C;
  ClientDel : string → C → bool * C
}.

End cache.

(** The struct literal of both backends' [Set]: relative durations become
    absolute timestamps at the instant of the write. *)
Definition setEntry `{DurationSeconds} (now : Z) (val : list Byte.byte) (ttl : TTL)
  : CacheEntry :=
  {| Data := val;
     CreatedAt := now;
     StaleAt := int64_wrap (now + SecondsInt64 (Fresh ttl));
     ExpiresAt := int64_wrap (int64_wrap (now + SecondsInt64 (Fresh ttl))
                              + SecondsInt64 (Stale ttl)) |}.

Module bigcache.

(** The store of [github.com/allegro/bigcache/v3], seen through its
    contents, the finite map from the keys it holds to their bytes.  Its
    [Set] at an instant may refuse the record (it returns an error when the
    record is larger than a shard) and may drop entries of any key, to make
    room or because their life window has passed; it returns whether the
    record was accepted and the contents it leaves.  The store's cleaner
    also drops entries between calls: later contents are included in
    earlier ones unless something was written. *)
Class Store := {
  Set_ : Z → string → list Byte.byte → gmap string (list Byte.byte)
         → bool * gmap string (list Byte.byte)
}.

Class StoreLaws `{Store} : Prop := {
  accepted_is_held :
    ∀ now key data contents,
      (Set_ now key data contents).1 = true →
      (Set_ now key data contents).2 !! key = Some data;
  others_kept_or_dropped :
    ∀ now key data contents other bytes,
      other ≠ key →
      (Set_ now key data contents).2 !! other = Some bytes →
      contents !! other = Some bytes
}.

End bigcache.

Module l1.
Import cache.

(** [type BigCache struct]: the contents of the in-process store, the size
    guard, and what logger and metrics received.  The store's [Get] is the
    lookup in its contents and its [Delete] the removal of the key; its
    [Set] is [bigcache.Set_]. *)
Record BigCache := mkBigCache {
  store : gmap string (list Byte.byte);
  maxEntrySize : Z;
  sink : list Report
}.

(** What the methods do to the state: [report] appends what logger and
    metrics receive, [storeDelete] is the store's [Delete], [withStore] keeps
    the contents that the store's [Set] left.  [storeSet] gives a state that
    holds [data] under [key]; the sample states are built with it. *)
Definition report (rs : list Report) (bc : BigCache) : BigCache :=
  {| store := store bc; maxEntrySize := maxEntrySize bc; sink := sink bc ++ rs |}.

Definition storeDelete (key : string) (bc : BigCache) : BigCache :=
  {| store := delete key (store bc); maxEntrySize := maxEntrySize bc;
     sink := sink bc |}.

Definition storeSet (key : string) (data : list Byte.byte) (bc : BigCache)
  : BigCache :=
  {| store := <[key := data]> (store bc); maxEntrySize := maxEntrySize bc;
     sink := sink bc |}.

Definition withStore (contents : gmap string (list Byte.byte)) (bc : BigCache)
  : BigCache :=
  {| store := contents; maxEntrySize := maxEntrySize bc; sink := sink bc |}.

Section Backend.
Context `{Codec} `{DurationSeconds} `{bigcache.Store}.

Definition Get (now : Z) (key : string) (bc : BigCache)
  : (option CacheEntry * bool) * BigCache :=
  match store bc !! key with
  | None => ((None, false), bc)
  | Some data =>
    match Unmarshal data with
    | None =>
      ((None, false),
       storeDelete key
         (report [LogWarn "Failed to unmarshal L1 cache entry" key;
                  RecordCacheError "l1" "decode"] bc))
    | Some entry =>
      if IsExpired entry now then ((None, false), storeDelete key bc)
      else ((Some entry, true), bc)
    end
  end.

Definition GetStale (now : Z) (key : string) (bc : BigCache)
  : (option CacheEntry * bool) * BigCache :=
  match store bc !! key with
  | None => ((None, false), bc)
  | Some data =>
    match Unmarshal data with
    | None => ((None, false), storeDelete key bc)
    | Some entry =>
      if IsExpired entry now then ((None, false), storeDelete key bc)
      else ((Some entry, true), bc)
    end
  end.

Definition Set_ (now : Z) (key : string) (val : list Byte.byte) (ttl : TTL)
  (bc : BigCache) : BigCache :=
  let entry := setEntry now val ttl in
  match Marshal entry with
  | None =>
    report [LogError "Failed to marshal cache entry" key;
            RecordCacheError "l1" "encode"] bc
  | Some data =>
    if maxEntrySize bc <? Z.of_nat (length data) then
      report [LogWarn "Cache entry too large, skipping L1 cache" key;
              RecordCacheError "l1" "entry_too_large"] bc
    else
      let '(ok, contents) := bigcache.Set_ now key data (store bc) in
      let bc := withStore contents bc in
      if ok then bc
      else report [LogError "Failed to set cache entry" key;
                   RecordCacheError "l1" "upstream"] bc
  end.

Definition Delete (key : string) (bc : BigCache) : BigCache :=
  storeDelete key bc.

#[global] Instance BigCache_Cache : Cache BigCache :=
  {| cache.Get := Get; cache.GetStale := GetStale;
     cache.Set_ := Set_; cache.Delete := Delete |}.

End Backend.
End l1.

Module l2.
Import cache.

(** [type KeyDBCache struct]: the client connection and what logger and
    metrics received.  The per-call deadlines of [cfg] are real-time
    behaviour of the client and show only as its error results. *)
Record KeyDBCache (C : Type) := mkKeyDBCache {
  client : C;
  sink : list Report
}.
Arguments mkKeyDBCache {C}.
Arguments client {C}.
Arguments sink {C}.

Section Backend.
Context `{Codec} `{DurationSeconds} {C : Type} `{!KeyDbClient C}.

Definition report (rs : list Report) (kc : KeyDBCache C) : KeyDBCache C :=
  {| client := client kc; sink := sink kc ++ rs |}.

Definition withClient (c : C) (kc : KeyDBCache C) : KeyDBCache C :=
  {| client := c; sink := sink kc |}.

(** [kc.client.Del(context.Background(), key)], result dropped. *)
Definition clientDel (key : string) (kc : KeyDBCache C) : KeyDBCache C :=
  withClient (ClientDel key (client kc)).2 kc.

Definition Get (now : Z) (key : string) (kc : KeyDBCache C)
  : (option CacheEntry * bool) * KeyDBCache C :=
  let '(cmd, c) := ClientGet key (client kc) in
  let kc := withClient c kc in
  match cmd with
  | RedisNil => ((None, false), kc)
  | RedisErr => ((None, false), report [LogWarn "L2 cache get failed" key] kc)
  | RedisData data =>
    match Unmarshal data with
    | None =>
      ((None, false),
       clientDel key
         (report [LogError "Failed to unmarshal L2 cache entry" key;
                  RecordCacheError "l2" "decode"] kc))
    | Some entry =>
      if IsExpired entry now then ((None, false), clientDel key kc)
      else ((Some entry, true), kc)
    end
  end.

Definition GetStale (now : Z) (key : string) (kc : KeyDBCache C)
  : (option CacheEntry * bool) * KeyDBCache C :=
  let '(cmd, c) := ClientGet key (client kc) in
  let kc := withClient c kc in
  match cmd with
  | RedisNil => ((None, false), kc)
  | RedisErr =>
    ((None, false), report [LogWarn "L2 cache stale get failed" key] kc)
  | RedisData data =>
    match Unmarshal data with
    | None =>
      ((None, false),
       clientDel key
         (report [LogError "Failed to unmarshal L2 cache entry for stale get"
                    key] kc))
    | Some entry =>
      if IsExpired entry now then ((None, false), clientDel key kc)
      else ((Some entry, true), kc)
    end
  end.

Definition Set_ (now : Z) (key : string) (val : list Byte.byte) (ttl : TTL)
  (kc : KeyDBCache C) : KeyDBCache C :=
  let entry := setEntry now val ttl in
  match Marshal entry with
  | None =>
    report [LogError "Failed to marshal L2 cache entry" key;
            RecordCacheError "l2" "encode"] kc
  | Some data =>
    let totalTTL := int64_wrap (Fresh ttl + Stale ttl) in
    let '(ok, c) := ClientSet key data totalTTL (client kc) in
    let kc := withClient c kc in
    if ok then kc
    else report [LogWarn "Failed to set L2 cache entry" key;
                 RecordCacheError "l2" "redis"] kc
  end.

Definition Delete (key : string) (kc : KeyDBCache C) : KeyDBCache C :=
  let '(ok, c) := ClientDel key (client kc) in
  let kc := withClient c kc in
  if ok then kc else report [LogWarn "Failed to delete L2 cache entry" key] kc.

#[global] Instance KeyDBCache_Cache : Cache (KeyDBCache C) :=
  {| cache.Get := Get; cache.GetStale := GetStale;
     cache.Set_ := Set_; cache.Delete := Delete |}.

End Backend.
End l2.

Module noop.
Import cache.

(** [type NoOpCache struct{}]. *)
Inductive NoOpCache := mkNoOpCache.

Definition Get (now : Z) (key : string) (n : NoOpCache)
  : (option CacheEntry * bool) * NoOpCache := ((None, false), n).

Definition GetStale (now : Z) (key : string) (n : NoOpCache)
  : (option CacheEntry * bool) * NoOpCache := ((None, false), n).

Definition Set_ (now : Z) (key : string) (val : list Byte.byte) (ttl : TTL)
  (n : NoOpCache) : NoOpCache := n.

Definition Delete (key : string) (n : NoOpCache) : NoOpCache := n.

#[global] Instance NoOpCache_Cache : Cache NoOpCache :=
  {| cache.Get := Get; cache.GetStale := GetStale;
     cache.Set_ := Set_; cache.Delete := Delete |}.

End noop.

(** A slice of [cache.Cache] values holds backends of different dynamic
    types; a tier that is one of two kinds dispatches to its own methods. *)
#[global] Instance sum_Cache {A B : Type} `{!cache.Cache A} `{!cache.Cache B}
  : cache.Cache (A + B) :=
  {| cache.Get := λ now key s,
       match s with
       | inl a => let '(r, a') := cache.Get now key a in (r, inl a')
       | inr b => let '(r, b') := cache.Get now key b in (r, inr b')
       end;
     cache.GetStale := λ now key s,
       match s with
       | inl a => let '(r, a') := cache.GetStale now key a in (r, inl a')
       | inr b => let '(r, b') := cache.GetStale now key b in (r, inr b')
       end;
     cache.Set_ := λ now key val ttl s,
       match s with
       | inl a => inl (cache.Set_ now key val ttl a)
       | inr b => inr (cache.Set_ now key val ttl b)
       end;
     cache.Delete := λ key s,
       match s with
       | inl a => inl (cache.Delete key a)
       | inr b => inr (cache.Delete key b)
       end |}.

Module multi.
Import cache.

(** What the orchestrator does to its collaborators, in order: a method
    call on the tier at an index, or a warning given to its logger. *)
Inductive Event :=
  | CallGet (i : nat) (key : string)
  | CallGetStale (i : nat) (key : string)
  | CallSet (i : nat) (key : string) (val : list Byte.byte) (ttl : TTL)
  | CallDelete (i : nat) (key : string)
  | LoggerWarn (msg key : string).

Section Orchestrator.
Context {S : Type} `{!Cache S}.

(** [type MultiCache struct]. *)
Record MultiCache := mkMultiCache {
  caches : list S;
  enablePropagation : bool
}.

(** A method of [MultiCache]: from the receiver to its result, the receiver
    after the call and the events of the call; [None] is a run-time panic
    (an index out of range). *)
Definition M (A : Type) : Type :=
  MultiCache → option (A * MultiCache * list Event).

Definition ret {A} (a : A) : M A := λ mc, Some (a, mc, []).

Definition bind {A B} (m : M A) (k : A → M B) : M B :=
  λ mc,
    match m mc with
    | None => None
    | Some (a, mc1, t1) =>
      match k a mc1 with
      | None => None
      | Some (b, mc2, t2) => Some (b, mc2, t1 ++ t2)
      end
    end.

Notation "'let*' x ':=' m 'in' k" := (bind m (λ x, k))
  (at level 10, x pattern, m at level 100, k at level 200).

Notation "m ';;' k" := (bind m (λ _, k))
  (at level 100, k at level 200, right associativity).

(** [mc.caches[i].method(...)]: the tier's state is replaced by the one the
    method leaves. *)
Definition onTier {A} (i : nat) (ev : Event) (method : S → A * S) : M A :=
  λ mc,
    match caches mc !! i with
    | None => None
    | Some c =>
      let '(a, c') := method c in
      Some (a,
            {| caches := <[i := c']> (caches mc);
               enablePropagation := enablePropagation mc |},
            [ev])
    end.

Definition tierGet (now : Z) (i : nat) (key : string)
  : M (option CacheEntry * bool) :=
  onTier i (CallGet i key) (Get now key).

Definition tierGetStale (now : Z) (i : nat) (key : string)
  : M (option CacheEntry * bool) :=
  onTier i (CallGetStale i key) (GetStale now key).

Definition tierSet (now : Z) (i : nat) (key : string) (val : list Byte.byte)
  (ttl : TTL) : M unit :=
  onTier i (CallSet i key val ttl) (λ c, (tt, Set_ now key val ttl c)).

Definition tierDelete (i : nat) (key : string) : M unit :=
  onTier i (CallDelete i key) (λ c, (tt, Delete key c)).

Definition warn (msg key : string) : M unit :=
  λ mc, Some (tt, mc, [LoggerWarn msg key]).

Definition numCaches : M nat := λ mc, Some (length (caches mc), mc, []).

Definition propagationEnabled : M bool :=
  λ mc, Some (enablePropagation mc, mc, []).

(** [for i := from; i < from + count; i++ { body(i) }]. *)
Fixpoint forRange (from count : nat) (body : nat → M unit) : M unit :=
  match count with
  | O => ret tt
  | Datatypes.S count' => body from ;; forRange (Datatypes.S from) count' body
  end.

(** [propagateToEarlierCaches]. *)
Definition propagateToEarlierCaches (now : Z) (key : string)
  (entry : option CacheEntry) (foundAtIndex : nat) : M unit :=
  match entry with
  | None => ret tt
  | Some e =>
    if IsExpired e now then ret tt
    else
      let remainingTTL := RemainingTTL e now in
      if (Fresh remainingTTL <=? 0) && (Stale remainingTTL <=? 0) then ret tt
      else forRange 0 foundAtIndex
             (λ i, tierSet now i key (Data e) remainingTTL)
  end.

Definition missResult : CacheResult :=
  {| Entry := None; Found := false; Level := CacheLevelMiss |}.

(** The [for i, c := range mc.caches] loop shared by [GetWithLevel] and
    [GetStaleWithLevel], from index [i] over [count] remaining tiers;
    [lookup] is the tier method of the variant. *)
Fixpoint scanTiers (now : Z) (lookup : nat → string → M (option CacheEntry * bool))
  (key : string) (i count : nat) : M CacheResult :=
  match count with
  | O => ret missResult
  | Datatypes.S count' =>
    let* (entry, found) := lookup i key in
    if found then
      let* enabled := propagationEnabled in
      (if (0 <? i)%nat && enabled
       then propagateToEarlierCaches now key entry i
       else ret tt) ;;
      ret {| Entry := entry; Found := true;
             Level := CacheLevelFromIndex (Z.of_nat i) |}
    else scanTiers now lookup key (Datatypes.S i) count'
  end.

(** [GetWithLevel]. *)
Definition GetWithLevel (now : Z) (key : string) : M CacheResult :=
  let* n := numCaches in
  if (n =? 0)%nat then
    warn "No caches available for get operation" key ;; ret missResult
  else scanTiers now (tierGet now) key 0 n.

(** [GetStaleWithLevel]. *)
Definition GetStaleWithLevel (now : Z) (key : string) : M CacheResult :=
  let* n := numCaches in
  if (n =? 0)%nat then ret missResult
  else scanTiers now (tierGetStale now) key 0 n.

(** [Get] and [GetStale]: the projections of the level-aware calls. *)
Definition Get (now : Z) (key : string) : M (option CacheEntry * bool) :=
  let* result := GetWithLevel now key in ret (Entry result, Found result).

Definition GetStale (now : Z) (key : string) : M (option CacheEntry * bool) :=
  let* result := GetStaleWithLevel now key in ret (Entry result, Found result).

(** [Set]. *)
Definition Set_ (now : Z) (key : string) (val : list Byte.byte) (ttl : TTL)
  : M unit :=
  let* n := numCaches in
  if (n =? 0)%nat then warn "No caches available for set operation" key
  else forRange 0 n (λ i, tierSet now i key val ttl).

(** [Delete]. *)
Definition Delete (key : string) : M unit :=
  let* n := numCaches in
  if (n =? 0)%nat then warn "No caches available for delete operation" key
  else forRange 0 n (λ i, tierDelete i key).

(** [GetCacheCount]. *)
Definition GetCacheCount : M nat := numCaches.

End Orchestrator.

Arguments MultiCache S : clear implicits.
Arguments M S A : clear implicits.
Arguments mkMultiCache {S}.

End multi.

(** ** Instances of the outside collaborators

    One lawful implementation of each interface, on which the general
    results are run. *)

Module record_codec.

(** A self-delimiting record: the three timestamps, each a sign byte and
    the binary digits of the magnitude up to a terminator, then the data. *)
Fixpoint encodePositive (p : positive) : list Byte.byte :=
  match p with
  | xH => [x02]
  | xO q => x00 :: encodePositive q
  | xI q => x01 :: encodePositive q
  end.

Definition encodeZ (z : Z) : list Byte.byte :=
  match z with
  | Z0 => [x00]
  | Zpos p => x01 :: encodePositive p
  | Zneg p => x02 :: encodePositive p
  end.

Fixpoint decodePositive (bs : list Byte.byte)
  : option (positive * list Byte.byte) :=
  match bs with
  | [] => None
  | b :: rest =>
    if Byte.eqb b x02 then Some (xH, rest)
    else if Byte.eqb b x00 then
      match decodePositive rest with
      | Some (q, r) => Some (xO q, r)
      | None => None
      end
    else if Byte.eqb b x01 then
      match decodePositive rest with
      | Some (q, r) => Some (xI q, r)
      | None => None
      end
    else None
  end.

Definition decodeZ (bs : list Byte.byte) : option (Z * list Byte.byte) :=
  match bs with
  | [] => None
  | b :: rest =>
    if Byte.eqb b x00 then Some (0, rest)
    else if Byte.eqb b x01 then
      match decodePositive rest with
      | Some (p, r) => Some (Zpos p, r)
      | None => None
      end
    else if Byte.eqb b x02 then
      match decodePositive rest with
      | Some (p, r) => Some (Zneg p, r)
      | None => None
      end
    else None
  end.

Definition encodeEntry (ce : CacheEntry) : list Byte.byte :=
  encodeZ (ExpiresAt ce) ++ encodeZ (StaleAt ce) ++ encodeZ (CreatedAt ce)
  ++ Data ce.

Definition decodeEntry (bs : list Byte.byte) : option CacheEntry :=
  match decodeZ bs with
  | None => None
  | Some (expiresAt, r1) =>
    match decodeZ r1 with
    | None => None
    | Some (staleAt, r2) =>
      match decodeZ r2 with
      | None => None
      | Some (createdAt, r3) => Some (mkEntry r3 expiresAt staleAt createdAt)
      end
    end
  end.

#[global] Instance RecordCodec : Codec :=
  {| Marshal := λ ce, Some (encodeEntry ce); Unmarshal := decodeEntry |}.

End record_codec.

(** A store that accepts every record and drops nothing; it is the store
    of the runs on the sample values. *)
#[global] Instance KeepsEverything : bigcache.Store | 100 :=
  {| bigcache.Set_ := λ _ key data contents, (true, <[key := data]> contents) |}.

(** A store of one shard of [limit] bytes: a record above the limit is
    refused, and the shard has been emptied in the search for room. *)
Definition ShardLimited (limit : Z) : bigcache.Store :=
  {| bigcache.Set_ := λ _ key data contents,
       if limit <? Z.of_nat (length data) then (false, ∅)
       else (true, <[key := data]> contents) |}.

(** A codec whose [Marshal] always returns an error. *)
Definition rejectingCodec : Codec :=
  {| Marshal := λ _, None; Unmarshal := λ _, None |}.

(** Whole seconds by integer truncation: what [time.Duration.Seconds] and
    the conversion to [int64] give whenever float64 holds the count of
    seconds exactly, as it does for every whole number of seconds. *)
#[global] Instance TruncatedSeconds : DurationSeconds :=
  {| SecondsInt64 := λ d, Z.quot d Second |}.

Module map_client.
Import cache.

(** A key-value server that keeps what it is given, behind a connection
    that is up or down; a command on a connection that is down fails and
    changes nothing.  Server-side expiry is not modelled. *)
Record MapClient := mkMapClient {
  kv : gmap string (list Byte.byte);
  reachable : bool
}.

Definition mapGet (key : string) (c : MapClient) : StringCmd * MapClient :=
  if reachable c then
    (match kv c !! key with Some data => RedisData data | None => RedisNil end,
     c)
  else (RedisErr, c).

Definition mapSet (key : string) (data : list Byte.byte) (expiration : Z)
  (c : MapClient) : bool * MapClient :=
  if reachable c then
    (true, {| kv := <[key := data]> (kv c); reachable := true |})
  else (false, c).

Definition mapDel (key : string) (c : MapClient) : bool * MapClient :=
  if reachable c then
    (true, {| kv := delete key (kv c); reachable := true |})
  else (false, c).

#[global] Instance MapClient_KeyDbClient : KeyDbClient MapClient :=
  {| ClientGet := mapGet; ClientSet := mapSet; ClientDel := mapDel |}.

End map_client.

(** ** Configuration of the backends ([cache/config.go]) *)

(** [time.Millisecond], in nanoseconds. *)
Definition Millisecond : Z := 1000000.

Module bigcache_config.

(** [type BigCacheConfig struct]. *)
Record BigCacheConfig := mkBigCacheConfig {
  Enabled : bool;
  Size : Z;
  MaxEntrySize : Z;
  Shards : Z
}.

(** [func (c *BigCacheConfig) ApplyDefaults()]. *)
Definition ApplyDefaults (c : BigCacheConfig) : BigCacheConfig :=
  let c := if Size c =? 0
           then mkBigCacheConfig (Enabled c) 100 (MaxEntrySize c) (Shards c)
           else c in
  let c := if MaxEntrySize c =? 0
           then mkBigCacheConfig (Enabled c) (Size c) 1048576 (Shards c)
           else c in
  let c := if Shards c =? 0
           then mkBigCacheConfig (Enabled c) (Size c) (MaxEntrySize c) 256
           else c in
  c.

End bigcache_config.

Module keydb_config.

(** [type ConnectionConfig struct]. *)
Record ConnectionConfig := mkConnectionConfig {
  ConnectTimeout : Z;
  SendTimeout : Z;
  ReadTimeout : Z
}.

(** [type KeepaliveConfig struct]. *)
Record KeepaliveConfig := mkKeepaliveConfig {
  PoolSize : Z;
  MaxIdleTimeout : Z
}.

(** [type CacheSettings struct]. *)
Record CacheSettings := mkCacheSettings {
  DefaultTTL : Z;
  MaxTTL : Z
}.

(** [type KeyDBConfig struct]. *)
Record KeyDBConfig := mkKeyDBConfig {
  Enabled : bool;
  Connection : ConnectionConfig;
  Keepalive : KeepaliveConfig;
  Cache : CacheSettings
}.

Definition orDefault (value default : Z) : Z :=
  if value =? 0 then default else value.

(** [func (c *KeyDBConfig) ApplyDefaults()]: each field is tested and
    assigned on its own. *)
Definition ApplyDefaults (c : KeyDBConfig) : KeyDBConfig :=
  {| Enabled := Enabled c;
     Connection :=
       {| ConnectTimeout :=
            orDefault (ConnectTimeout (Connection c)) (1000 * Millisecond);
          SendTimeout :=
            orDefault (SendTimeout (Connection c)) (1000 * Millisecond);
          ReadTimeout :=
            orDefault (ReadTimeout (Connection c)) (1000 * Millisecond) |};
     Keepalive :=
       {| PoolSize := orDefault (PoolSize (Keepalive c)) 10;
          MaxIdleTimeout :=
            orDefault (MaxIdleTimeout (Keepalive c)) (10000 * Millisecond) |};
     Cache :=
       {| DefaultTTL := orDefault (DefaultTTL (Cache c)) (3600 * Second);
          MaxTTL := orDefault (MaxTTL (Cache c)) (86400 * Second) |} |}.

End keydb_config.

(** ** Concrete values on which the results are run *)

Module sample.

Definition ttl : TTL := mkTTL (60 * Second) (30 * Second).
Definition key : string := "test-key".
Definition value : list Byte.byte := [x74; x65; x73; x74].
Definition t0 : Z := 1700000000.

Definition emptyL1 : l1.BigCache := l1.mkBigCache ∅ 1048576 [].

Definition emptyL2 : l2.KeyDBCache map_client.MapClient :=
  l2.mkKeyDBCache (map_client.mkMapClient ∅ true) [].

(** The entry of [Set(key, value, ttl)] at [t0]. *)
Definition entry : CacheEntry := mkEntry value (t0 + 90) (t0 + 60) t0.

(** A second tier that holds [entry] under [key]. *)
Definition holdingL2 : l2.KeyDBCache map_client.MapClient :=
  l2.mkKeyDBCache
    (map_client.mkMapClient {[ key := record_codec.encodeEntry entry ]} true) [].

(** A first-tier backend that holds [entry] under [key]. *)
Definition holdingL1 : l1.BigCache :=
  l1.storeSet key (record_codec.encodeEntry entry) emptyL1.

(** A first-tier backend whose bytes under [key] do not decode. *)
Definition corruptL1 : l1.BigCache := l1.storeSet key [xff] emptyL1.

(** Two tiers, the entry only in the second. *)
Definition tiers : list (l1.BigCache + l2.KeyDBCache map_client.MapClient) :=
  [inl emptyL1; inr holdingL2].

End sample.

(** ** Vocabulary of the statements *)

(** A span of seconds that [RemainingTTL] can return as a [time.Duration]
    without leaving the machine range. *)
Definition span_fits (secs : Z) : Prop := int64_min ≤ secs ≤ MaxDurationSeconds.

(** A clock reading from which two full durations can be added without
    leaving the machine range. *)
Definition clock_ok (now : Z) : Prop :=
  0 ≤ now ≤ int64_max - 2 * (MaxDurationSeconds + 1).

Section ReadVocabulary.
Context `{Codec}.

(** What a read of the key's stored bytes finds: bytes that decode to an
    unexpired entry, or nothing that can be served. *)
Definition servable (now : Z) (payload : option (list Byte.byte))
  : option CacheEntry :=
  match payload with
  | None => None
  | Some data =>
    match Unmarshal data with
    | None => None
    | Some entry => if IsExpired entry now then None else Some entry
    end
  end.

End ReadVocabulary.

Definition resultOf (served : option CacheEntry) : option CacheEntry * bool :=
  match served with
  | Some entry => (Some entry, true)
  | None => (None, false)
  end.

(** The bytes a client reply carries; [redis.Nil] and errors carry none. *)
Definition replyPayload (cmd : cache.StringCmd) : option (list Byte.byte) :=
  match cmd with
  | cache.RedisData data => Some data
  | _ => None
  end.

(** What [propagateToEarlierCaches] decides before writing. *)
Definition propagates (e : CacheEntry) (now : Z) : bool :=
  negb (IsExpired e now)
  && negb ((Fresh (RemainingTTL e now) <=? 0) && (Stale (RemainingTTL e now) <=? 0)).


(** The tiers written by a call, in call order. *)
Definition written (trace : list multi.Event) : list nat :=
  omap (λ e, match e with multi.CallSet i _ _ _ => Some i | _ => None end) trace.

Section TierVocabulary.
Context {T : Type} `{!cache.Cache T}.

(** The two read variants: the tier method, the event of its call and the
    orchestrator method. *)
Definition tierMethod (stale : bool) (now : Z) (key : string)
  : T → (option CacheEntry * bool) * T :=
  if stale then cache.GetStale now key else cache.Get now key.

Definition tierEvent (stale : bool) (key : string) (i : nat) : multi.Event :=
  if stale then multi.CallGetStale i key else multi.CallGet i key.

Definition levelLookup (stale : bool) (now : Z) (key : string)
  : multi.M T CacheResult :=
  if stale then multi.GetStaleWithLevel now key else multi.GetWithLevel now key.

(** What a hit leaves in the tiers before it, and the writes made: the
    promotion when the flag is set and the entry passes the checks of
    [propagateToEarlierCaches], nothing otherwise. *)
Definition promotion (now : Z) (key : string) (entry : option CacheEntry)
  (p : bool) (earlier : list T) : list T * list multi.Event :=
  match entry with
  | Some e =>
    if (0 <? length earlier)%nat && p && propagates e now then
      (cache.Set_ now key (Data e) (RemainingTTL e now) <$> earlier,
       (λ j, multi.CallSet j key (Data e) (RemainingTTL e now))
         <$> seq 0 (length earlier))
    else (earlier, [])
  | None => (earlier, [])
  end.

(** The run of the loop when [hit] is the first tier that reports found:
    every tier before it is read once, then [hit]; the promotion follows
    exactly when the index is positive and the flag is set. *)
Definition afterHit (now : Z) (key : string)
  (method : T → (option CacheEntry * bool) * T) (ev : nat → multi.Event)
  (p : bool) (done before : list T) (hit : T) (after : list T)
  : option (CacheResult * multi.MultiCache T * list multi.Event) :=
  let i := (length done + length before)%nat in
  let result := {| Entry := (method hit).1.1; Found := true;
                   Level := CacheLevelFromIndex (Z.of_nat i) |} in
  let reads := ev <$> seq (length done) (Datatypes.S (length before)) in
  let readOnly :=
    multi.mkMultiCache (done ++ (snd ∘ method <$> before) ++ (method hit).2 :: after) p in
  if (0 <? i)%nat && p then
    match multi.propagateToEarlierCaches now key (method hit).1.1 i readOnly with
    | Some (_, promoted, sets) => Some (result, promoted, reads ++ sets)
    | None => None
    end
  else Some (result, readOnly, reads).


(** A level-aware read [run] whose first hit is [hit], after the tiers
    [before]: the reads are followed by [propagateToEarlierCaches] exactly
    when the hit index is positive and the flag [p] is set; with the flag
    unset the call writes to no tier and leaves every earlier tier as its
    own read left it, so a tier whose miss is lasting still misses. *)
Definition gatedPromotion (now : Z) (key : string)
  (method : T → (option CacheEntry * bool) * T) (event : nat → multi.Event)
  (run : multi.M T CacheResult)
  (p : bool) (before : list T) (hit : T) (after : list T) : Prop :=
  let i := length before in
  let mc := multi.mkMultiCache (before ++ hit :: after) p in
  let result := {| Entry := (method hit).1.1; Found := true;
                   Level := CacheLevelFromIndex (Z.of_nat i) |} in
  let reads := event <$> seq 0 (Datatypes.S i) in
  let readOnly :=
    multi.mkMultiCache ((snd ∘ method <$> before) ++ (method hit).2 :: after) p in
  run mc
  = (if (0 <? i)%nat && p then
       match multi.propagateToEarlierCaches now key (method hit).1.1 i readOnly with
       | Some (_, promoted, sets) => Some (result, promoted, reads ++ sets)
       | None => None
       end
     else Some (result, readOnly, reads)) ∧
  (p = false → run mc = Some (result, readOnly, reads) ∧ written reads = []) ∧
  (p = false →
   (∀ c later, (method c).1.2 = false →
               (cache.Get later key (method c).2).1.2 = false) →
   ∀ j c', (j < i)%nat → multi.caches readOnly !! j = Some c' →
           ∀ later, (cache.Get later key c').1.2 = false).

(** Any run of [run] that writes to a tier has the flag set and a hit at a
    positive index [j], and writes the tiers below [j]. *)
Definition writesOnlyOnLaterHit (run : multi.M T CacheResult) : Prop :=
  ∀ mc result mc' trace,
    run mc = Some (result, mc', trace) →
    written trace ≠ [] →
    multi.enablePropagation mc = true ∧
    Found result = true ∧
    ∃ j, (0 < j)%nat ∧ Level result = CacheLevelFromIndex (Z.of_nat j) ∧
         written trace = seq 0 j.

End TierVocabulary.

(** A method of the orchestrator returns normally and leaves the number of
    tiers and the propagation flag as they were. *)
Definition returnsKeepingTiers {T A : Type} (mc : multi.MultiCache T)
  (outcome : option (A * multi.MultiCache T * list multi.Event)) : Prop :=
  ∃ a mc' trace,
    outcome = Some (a, mc', trace) ∧
    length (multi.caches mc') = length (multi.caches mc) ∧
    multi.enablePropagation mc' = multi.enablePropagation mc.

(** ** Facts on the machine arithmetic *)

Lemma int64_wrap_id z : is_int64 z → int64_wrap z = z.
Proof.
  unfold is_int64, int64_min, int64_max, int64_wrap. intros Hz.
  rewrite Z.mod_small; lia.
Qed.

Lemma int64_wrap_range z : is_int64 (int64_wrap z).
Proof.
  unfold is_int64, int64_min, int64_max, int64_wrap.
  pose proof (Z.mod_pos_bound (z + 2 ^ 63) (2 ^ 64)). lia.
Qed.

Lemma clamp_seconds_exact d :
  span_fits d →
  int64_wrap ((if int64_wrap d <? 0 then 0 else int64_wrap d) * Second)
  = Z.max 0 d * Second.
Proof.
  unfold span_fits, MaxDurationSeconds, int64_min. intros Hd.
  rewrite (int64_wrap_id d)
    by (unfold is_int64, int64_min, int64_max; lia).
  destruct (Z.ltb_spec d 0).
  - rewrite Z.max_l by lia. reflexivity.
  - rewrite Z.max_r by lia. apply int64_wrap_id.
    unfold is_int64, int64_min, int64_max, Second. lia.
Qed.

(** ** The entry and freshness model *)

(** C8: [IsFresh] holds exactly when [t ≤ StaleAt], [IsExpired] exactly when
    [t > ExpiresAt], and when [StaleAt ≤ ExpiresAt] every expired entry is
    also not fresh. *)
Theorem freshness_model (ce : CacheEntry) (t : Z) :
  (IsFresh ce t = true ↔ t ≤ StaleAt ce) ∧
  (IsExpired ce t = true ↔ t > ExpiresAt ce) ∧
  (StaleAt ce ≤ ExpiresAt ce → IsExpired ce t = true → IsFresh ce t = false).
Proof.
  unfold IsFresh, IsExpired. repeat split.
  - intros H. apply Z.leb_le in H. exact H.
  - intros H. apply Z.leb_le. exact H.
  - intros H. apply Z.ltb_lt in H. lia.
  - intros H. apply Z.ltb_lt. lia.
  - intros Hinv H. apply Z.ltb_lt in H. apply Z.leb_gt. lia.
Qed.

Lemma freshness_model_witness :
  let ce := mkEntry [] 190 160 100 in
  StaleAt ce ≤ ExpiresAt ce ∧ IsExpired ce 195 = true ∧ IsFresh ce 195 = false.
Proof.
  cbn zeta. split; [cbn; lia|]. split; [reflexivity|].
  apply (freshness_model (mkEntry [] 190 160 100) 195); [cbn; lia | reflexivity].
Defined.

(** C6: the fresh part of the remaining TTL is [max 0 (StaleAt - now)]
    seconds and shrinks as [now] advances; the stale part is
    [max 0 (ExpiresAt - StaleAt)] seconds whatever [now] is. *)
Theorem remaining_ttl_formula (ce : CacheEntry) (now : Z) :
  span_fits (StaleAt ce - now) →
  span_fits (ExpiresAt ce - StaleAt ce) →
  Fresh (RemainingTTL ce now) = Z.max 0 (StaleAt ce - now) * Second ∧
  Stale (RemainingTTL ce now) = Z.max 0 (ExpiresAt ce - StaleAt ce) * Second ∧
  (∀ later, now ≤ later → span_fits (StaleAt ce - later) →
     Fresh (RemainingTTL ce later) ≤ Fresh (RemainingTTL ce now)) ∧
  (∀ other, Stale (RemainingTTL ce other) = Stale (RemainingTTL ce now)).
Proof.
  intros Hf Hs. unfold RemainingTTL. cbn [Fresh Stale].
  rewrite !clamp_seconds_exact by assumption.
  repeat split.
  intros later Hle Hl. rewrite clamp_seconds_exact by assumption.
  unfold Second. lia.
Qed.

Lemma remaining_ttl_formula_witness :
  let ce := mkEntry [] 190 160 100 in
  Fresh (RemainingTTL ce 110) = 50 * Second ∧
  Stale (RemainingTTL ce 110) = 30 * Second ∧
  Fresh (RemainingTTL ce 170) = 0 ∧
  Stale (RemainingTTL ce 170) = 30 * Second.
Proof.
  pose proof (remaining_ttl_formula (mkEntry [] 190 160 100) 110) as H1.
  pose proof (remaining_ttl_formula (mkEntry [] 190 160 100) 170) as H2.
  cbn [StaleAt ExpiresAt] in H1, H2.
  destruct H1 as (Hf1 & Hs1 & _); [unfold span_fits, int64_min, MaxDurationSeconds; lia ..|].
  destruct H2 as (Hf2 & Hs2 & _); [unfold span_fits, int64_min, MaxDurationSeconds; lia ..|].
  repeat split; assumption.
Defined.

(** ** The instances are lawful *)

Lemma decodePositive_encodePositive p rest :
  record_codec.decodePositive (record_codec.encodePositive p ++ rest)
  = Some (p, rest).
Proof.
  induction p as [q IH | q IH |]; cbn; [rewrite IH .. |]; reflexivity.
Qed.

Lemma decodeZ_encodeZ z rest :
  record_codec.decodeZ (record_codec.encodeZ z ++ rest) = Some (z, rest).
Proof.
  destruct z as [| p | p]; cbn; [| rewrite decodePositive_encodePositive ..];
    reflexivity.
Qed.

#[global] Instance RecordCodec_laws : CodecLaws (H := record_codec.RecordCodec).
Proof.
  split. intros [data e s c] bytes Hm. cbn in Hm. injection Hm as <-.
  cbn. unfold record_codec.decodeEntry, record_codec.encodeEntry. cbn.
  rewrite decodeZ_encodeZ, decodeZ_encodeZ, decodeZ_encodeZ. reflexivity.
Qed.

#[global] Instance TruncatedSeconds_laws :
  DurationSecondsLaws (H := TruncatedSeconds).
Proof.
  split; cbn.
  - intros s _. apply Z.quot_mul. unfold Second. lia.
  - intros d Hd.
    unfold is_int64, int64_min, int64_max, Second, MaxDurationSeconds in *.
    pose proof (Z.quot_rem' d 1000000000) as Hq.
    pose proof (Z.rem_bound_abs d 1000000000 ltac:(lia)). lia.
  - intros d Hd. apply Z.quot_pos; unfold Second; lia.
Qed.

#[global] Instance KeepsEverything_laws :
  bigcache.StoreLaws (H := KeepsEverything).
Proof.
  split; cbn.
  - intros _ key data contents _. apply lookup_insert_eq.
  - intros _ key data contents other bytes Hne.
    rewrite lookup_insert_ne by congruence. done.
Qed.

Lemma ShardLimited_laws limit : bigcache.StoreLaws (H := ShardLimited limit).
Proof.
  split; cbn.
  - intros _ key data contents.
    destruct (limit <? Z.of_nat (length data)); cbn; [discriminate |].
    intros _. apply lookup_insert_eq.
  - intros _ key data contents other bytes Hne.
    destruct (limit <? Z.of_nat (length data)); cbn.
    + rewrite lookup_empty. discriminate.
    + rewrite lookup_insert_ne by congruence. done.
Qed.

(** ** Backends: writes *)

Section SetEntry.
Context `{DurationSeconds} `{!DurationSecondsLaws}.

Lemma setEntry_fields now val ttl :
  clock_ok now →
  is_int64 (Fresh ttl) → is_int64 (Stale ttl) →
  setEntry now val ttl
  = mkEntry val (now + SecondsInt64 (Fresh ttl) + SecondsInt64 (Stale ttl))
      (now + SecondsInt64 (Fresh ttl)) now.
Proof.
  intros Hnow Hf Hs. unfold setEntry.
  pose proof (seconds_range _ Hf) as Bf.
  pose proof (seconds_range _ Hs) as Bs.
  unfold clock_ok, int64_max, MaxDurationSeconds in *.
  rewrite (int64_wrap_id (now + _))
    by (unfold is_int64, int64_min, int64_max; lia).
  rewrite int64_wrap_id by (unfold is_int64, int64_min, int64_max; lia).
  reflexivity.
Qed.

Lemma setEntry_whole now val fresh stale :
  clock_ok now →
  0 ≤ fresh ≤ MaxDurationSeconds → 0 ≤ stale ≤ MaxDurationSeconds →
  setEntry now val (mkTTL (fresh * Second) (stale * Second))
  = mkEntry val (now + fresh + stale) (now + fresh) now.
Proof.
  intros Hnow Hf Hs.
  rewrite setEntry_fields; cbn [Fresh Stale];
    [| assumption
     | unfold is_int64, int64_min, Second, MaxDurationSeconds, int64_max in *;
       lia ..].
  rewrite !seconds_whole by lia. reflexivity.
Qed.

End SetEntry.

Section FirstTierWrites.
Context `{Codec} `{DurationSeconds} `{bigcache.Store}.

(** A record that marshals and passes the size guard is handed to the
    store's [Set]; the backend keeps the contents the store leaves, and a
    refusal is reported as an [upstream] error. *)
Lemma l1_Set_handed now key val ttl bc data :
  Marshal (setEntry now val ttl) = Some data →
  Z.of_nat (length data) ≤ l1.maxEntrySize bc →
  l1.Set_ now key val ttl bc
  = let outcome := bigcache.Set_ now key data (l1.store bc) in
    let kept := l1.withStore outcome.2 bc in
    if outcome.1 then kept
    else l1.report [cache.LogError "Failed to set cache entry" key;
                    cache.RecordCacheError "l1" "upstream"] kept.
Proof.
  intros Hm Hlen. unfold l1.Set_. rewrite Hm.
  destruct (Z.ltb_spec (l1.maxEntrySize bc) (Z.of_nat (length data))); [lia |].
  cbn zeta. destruct (bigcache.Set_ now key data (l1.store bc)) as [ok contents].
  reflexivity.
Qed.

Lemma l1_Set_contents now key val ttl bc data :
  Marshal (setEntry now val ttl) = Some data →
  Z.of_nat (length data) ≤ l1.maxEntrySize bc →
  l1.store (l1.Set_ now key val ttl bc)
  = (bigcache.Set_ now key data (l1.store bc)).2.
Proof.
  intros Hm Hlen. rewrite (l1_Set_handed _ _ _ _ _ data Hm Hlen). cbn zeta.
  destruct (bigcache.Set_ now key data (l1.store bc)) as [[|] contents];
    reflexivity.
Qed.

Lemma l1_Set_stored `{!bigcache.StoreLaws} now key val ttl bc data :
  Marshal (setEntry now val ttl) = Some data →
  Z.of_nat (length data) ≤ l1.maxEntrySize bc →
  (bigcache.Set_ now key data (l1.store bc)).1 = true →
  l1.store (l1.Set_ now key val ttl bc) !! key = Some data.
Proof.
  intros Hm Hlen Hok. rewrite (l1_Set_contents _ _ _ _ _ data Hm Hlen).
  apply bigcache.accepted_is_held. exact Hok.
Qed.

Lemma l1_Set_keeps_limit now key val ttl bc :
  l1.maxEntrySize (l1.Set_ now key val ttl bc) = l1.maxEntrySize bc.
Proof.
  unfold l1.Set_. destruct (Marshal _) as [data|]; [| reflexivity].
  destruct (_ <? _); [reflexivity |].
  destruct (bigcache.Set_ now key data (l1.store bc)) as [[|] contents];
    reflexivity.
Qed.

(** Reads of a key whose record the store holds, whatever else the state
    holds. *)
Lemma l1_read_held now key data entry bc :
  l1.store bc !! key = Some data →
  Unmarshal data = Some entry →
  now ≤ ExpiresAt entry →
  l1.Get now key bc = ((Some entry, true), bc) ∧
  l1.GetStale now key bc = ((Some entry, true), bc).
Proof.
  intros Hk Hu He. unfold l1.Get, l1.GetStale. rewrite Hk, Hu.
  unfold IsExpired. destruct (Z.ltb_spec (ExpiresAt entry) now); [lia | done].
Qed.

(** Reads after the store has dropped entries: the key's record is the one
    held before, or the key is absent. *)
Lemma l1_read_aged now key data entry (bc aged : l1.BigCache) :
  l1.store bc !! key = Some data →
  l1.store aged ⊆ l1.store bc →
  Unmarshal data = Some entry →
  now ≤ ExpiresAt entry →
  (l1.Get now key aged).1
  = match l1.store aged !! key with
       | Some _ => (Some entry, true)
       | None => (None, false)
       end ∧
  (l1.GetStale now key aged).1
  = match l1.store aged !! key with
       | Some _ => (Some entry, true)
       | None => (None, false)
       end.
Proof.
  intros Hk Hsub Hu He.
  destruct (l1.store aged !! key) as [data'|] eqn:Ha.
  - pose proof (lookup_weaken _ _ _ _ Ha Hsub) as Hk'.
    assert (data' = data) as -> by congruence.
    destruct (l1_read_held now key data entry aged Ha Hu He) as [-> ->]. done.
  - unfold l1.Get, l1.GetStale. rewrite Ha. done.
Qed.

End FirstTierWrites.

(** C9: both backends' [Set] hand to their store the record of an entry
    created at [now], stale from [now + fresh] and expiring at
    [staleAt + stale], durations counted in the whole seconds that the
    conversion yields; the in-process store holds the record when it accepts
    it; for durations that are not negative,
    [createdAt ≤ staleAt ≤ expiresAt]. *)
Theorem set_absolute_timestamps `{DurationSeconds} `{!DurationSecondsLaws}
  `{Codec} {C : Type} `{!cache.KeyDbClient C} `{bigcache.Store}
  (now : Z) (key : string) (val : list Byte.byte) (ttl : TTL)
  (bc : l1.BigCache) (kc : l2.KeyDBCache C) (data : list Byte.byte) :
  clock_ok now →
  is_int64 (Fresh ttl) → is_int64 (Stale ttl) →
  Marshal (setEntry now val ttl) = Some data →
  Z.of_nat (length data) ≤ l1.maxEntrySize bc →
  let entry := setEntry now val ttl in
  (l1.store (l1.Set_ now key val ttl bc)
   = (bigcache.Set_ now key data (l1.store bc)).2 ∧
   (bigcache.StoreLaws →
    (bigcache.Set_ now key data (l1.store bc)).1 = true →
    l1.store (l1.Set_ now key val ttl bc) !! key = Some data)) ∧
  l2.client (l2.Set_ now key val ttl kc)
  = (cache.ClientSet key data (int64_wrap (Fresh ttl + Stale ttl))
       (l2.client kc)).2 ∧
  Data entry = val ∧
  CreatedAt entry = now ∧
  StaleAt entry = now + SecondsInt64 (Fresh ttl) ∧
  ExpiresAt entry = StaleAt entry + SecondsInt64 (Stale ttl) ∧
  (0 ≤ Fresh ttl → 0 ≤ Stale ttl →
   CreatedAt entry ≤ StaleAt entry ≤ ExpiresAt entry) ∧
  (∀ fresh stale, ttl = mkTTL (fresh * Second) (stale * Second) →
     StaleAt entry = now + fresh ∧ ExpiresAt entry = now + fresh + stale).
Proof.
  intros Hnow Hf Hs Hm Hlen entry.
  assert (Hentry := setEntry_fields now val ttl Hnow Hf Hs).
  fold entry in Hentry, Hm.
  split; [| split].
  - split.
    + exact (l1_Set_contents now key val ttl bc data Hm Hlen).
    + intros Hlaws Hok.
      exact (l1_Set_stored now key val ttl bc data Hm Hlen Hok).
  - unfold l2.Set_. fold entry. rewrite Hm.
    destruct (cache.ClientSet key data _ (l2.client kc)) as [[|] c]; reflexivity.
  - rewrite Hentry. cbn [Data CreatedAt StaleAt ExpiresAt].
    do 4 (split; [first [reflexivity | lia] |]). split.
    + intros Pf Ps.
      pose proof (seconds_nonneg _ Pf). pose proof (seconds_nonneg _ Ps). lia.
    + intros fresh stale ->. cbn [Fresh Stale] in *.
      rewrite !seconds_whole; [lia | |];
        unfold is_int64, int64_min, Second, MaxDurationSeconds, int64_max in *;
        lia.
Qed.

Lemma set_absolute_timestamps_witness :
  let entry := setEntry sample.t0 sample.value sample.ttl in
  l1.store (l1.Set_ sample.t0 sample.key sample.value sample.ttl sample.emptyL1)
    !! sample.key = Some (record_codec.encodeEntry entry) ∧
  StaleAt entry = sample.t0 + 60 ∧
  ExpiresAt entry = sample.t0 + 60 + 30 ∧
  CreatedAt entry ≤ StaleAt entry ≤ ExpiresAt entry.
Proof.
  pose proof (set_absolute_timestamps (C := map_client.MapClient)
                sample.t0 sample.key sample.value sample.ttl
                sample.emptyL1 sample.emptyL2
                (record_codec.encodeEntry
                   (setEntry sample.t0 sample.value sample.ttl))) as W.
  destruct W as ((_ & Hstore) & _ & _ & _ & _ & _ & Hinv & Hwhole).
  - unfold clock_ok. vm_compute. split; discriminate.
  - vm_compute. split; discriminate.
  - vm_compute. split; discriminate.
  - reflexivity.
  - vm_compute. discriminate.
  - destruct (Hwhole 60 30 eq_refl) as [Hs He].
    cbn zeta. split; [| split; [exact Hs | split; [exact He |]]].
    + apply Hstore; [exact KeepsEverything_laws | reflexivity].
    + apply Hinv; vm_compute; discriminate.
Defined.

(** ** Backends: reads *)

Section Reads.
Context `{Codec} `{DurationSeconds} {C : Type} `{!cache.KeyDbClient C}.

Lemma l1_Get_result now key bc :
  (l1.Get now key bc).1 = resultOf (servable now (l1.store bc !! key)).
Proof.
  unfold l1.Get, servable. destruct (l1.store bc !! key) as [data|]; [|done].
  destruct (Unmarshal data) as [entry|]; [|done].
  destruct (IsExpired entry now); done.
Qed.

Lemma l1_GetStale_eq now key bc :
  (l1.GetStale now key bc).1 = (l1.Get now key bc).1 ∧
  l1.store (l1.GetStale now key bc).2 = l1.store (l1.Get now key bc).2.
Proof.
  unfold l1.Get, l1.GetStale. destruct (l1.store bc !! key) as [data|]; [|done].
  destruct (Unmarshal data) as [entry|]; [|done].
  destruct (IsExpired entry now); done.
Qed.

Lemma l2_Get_result now key (kc : l2.KeyDBCache C) :
  (l2.Get now key kc).1
  = resultOf (servable now (replyPayload (cache.ClientGet key (l2.client kc)).1)).
Proof.
  unfold l2.Get, servable.
  destruct (cache.ClientGet key (l2.client kc)) as [[| | data] c]; [done ..|].
  cbn. destruct (Unmarshal data) as [entry|]; [|done].
  destruct (IsExpired entry now); done.
Qed.

Lemma l2_GetStale_eq now key (kc : l2.KeyDBCache C) :
  (l2.GetStale now key kc).1 = (l2.Get now key kc).1 ∧
  l2.client (l2.GetStale now key kc).2 = l2.client (l2.Get now key kc).2.
Proof.
  unfold l2.Get, l2.GetStale.
  destruct (cache.ClientGet key (l2.client kc)) as [[| | data] c]; [done ..|].
  destruct (Unmarshal data) as [entry|]; [|done].
  destruct (IsExpired entry now); done.
Qed.

Lemma resultOf_miss served : (resultOf served).2 = false ↔ served = None.
Proof. destruct served; cbn; split; congruence. Qed.

Lemma servable_None now payload :
  servable now payload = None ↔
  payload = None ∨
  ∃ data, payload = Some data ∧
    (Unmarshal data = None ∨
     ∃ entry, Unmarshal data = Some entry ∧ now > ExpiresAt entry).
Proof.
  unfold servable. destruct payload as [data|].
  - destruct (Unmarshal data) as [entry|] eqn:Hu.
    + unfold IsExpired. destruct (Z.ltb_spec (ExpiresAt entry) now) as [Hlt|Hge].
      * split; [|done]. intros _. right. exists data. split; [done|].
        right. exists entry. split; [done | lia].
      * split; [done|]. intros [?|(d & [= <-] & [?|(e & ? & ?)])];
          [done | congruence | ]. assert (e = entry) as -> by congruence. lia.
    + split; [|done]. intros _. right. exists data. auto.
  - split; [auto | done].
Qed.

Lemma servable_stale now data entry :
  Unmarshal data = Some entry →
  StaleAt entry < now ≤ ExpiresAt entry →
  servable now (Some data) = Some entry ∧ IsFresh entry now = false.
Proof.
  intros Hu [Hs He]. unfold servable, IsExpired, IsFresh. rewrite Hu.
  destruct (Z.ltb_spec (ExpiresAt entry) now); [lia|].
  split; [done|]. apply Z.leb_gt. lia.
Qed.

End Reads.

(** C2: at both backends [Get] and [GetStale] give the same result and
    leave the same stored data; that result is a miss exactly when the key
    is absent, its bytes do not decode, or the entry is past [ExpiresAt];
    freshness plays no part, so a stale entry that has not expired is a hit.
    A client error at the second tier reads as an absent key for both
    methods. *)
Theorem get_and_getstale_agree `{Codec} `{DurationSeconds}
  {C : Type} `{!cache.KeyDbClient C}
  (now : Z) (key : string) (bc : l1.BigCache) (kc : l2.KeyDBCache C) :
  let stored1 := l1.store bc !! key in
  let stored2 := replyPayload (cache.ClientGet key (l2.client kc)).1 in
  (l1.Get now key bc).1 = (l1.GetStale now key bc).1 ∧
  l1.store (l1.Get now key bc).2 = l1.store (l1.GetStale now key bc).2 ∧
  (l2.Get now key kc).1 = (l2.GetStale now key kc).1 ∧
  l2.client (l2.Get now key kc).2 = l2.client (l2.GetStale now key kc).2 ∧
  (stored1 = stored2 → (l1.Get now key bc).1 = (l2.Get now key kc).1) ∧
  ((l1.Get now key bc).1.2 = false ↔
     stored1 = None ∨
     ∃ data, stored1 = Some data ∧
       (Unmarshal data = None ∨
        ∃ entry, Unmarshal data = Some entry ∧ now > ExpiresAt entry)) ∧
  ((l2.Get now key kc).1.2 = false ↔
     stored2 = None ∨
     ∃ data, stored2 = Some data ∧
       (Unmarshal data = None ∨
        ∃ entry, Unmarshal data = Some entry ∧ now > ExpiresAt entry)) ∧
  (∀ data entry,
     Unmarshal data = Some entry → StaleAt entry < now ≤ ExpiresAt entry →
     IsFresh entry now = false ∧
     (stored1 = Some data →
        (l1.Get now key bc).1 = (Some entry, true) ∧
        (l1.GetStale now key bc).1 = (Some entry, true)) ∧
     (stored2 = Some data →
        (l2.Get now key kc).1 = (Some entry, true) ∧
        (l2.GetStale now key kc).1 = (Some entry, true))).
Proof.
  intros stored1 stored2.
  destruct (l1_GetStale_eq now key bc) as [R1 S1].
  destruct (l2_GetStale_eq now key kc) as [R2 S2].
  rewrite R1, S1, R2, S2, l1_Get_result, l2_Get_result.
  fold stored1 stored2.
  do 4 (split; [reflexivity |]).
  split; [intros ->; reflexivity |].
  split; [rewrite resultOf_miss; apply servable_None |].
  split; [rewrite resultOf_miss; apply servable_None |].
  intros data entry Hu Hwindow.
  destruct (servable_stale now data entry Hu Hwindow) as [Hserved Hfresh].
  split; [exact Hfresh |].
  split; intros ->; rewrite Hserved; split; reflexivity.
Qed.

Lemma get_and_getstale_agree_witness :
  let stale := mkEntry sample.value (sample.t0 + 90) (sample.t0 + 60) sample.t0 in
  let bc := l1.storeSet sample.key (record_codec.encodeEntry stale) sample.emptyL1 in
  let now := sample.t0 + 70 in
  IsFresh stale now = false ∧
  (l1.Get now sample.key bc).1 = (Some stale, true) ∧
  (l1.GetStale now sample.key bc).1 = (Some stale, true).
Proof.
  intros stale bc now.
  destruct (get_and_getstale_agree (C := map_client.MapClient)
              now sample.key bc sample.emptyL2)
    as (_ & _ & _ & _ & _ & _ & _ & Hstale).
  destruct (Hstale (record_codec.encodeEntry stale) stale) as (Hf & H1 & _).
  - apply (unmarshal_marshal stale). reflexivity.
  - vm_compute. split; [reflexivity | discriminate].
  - split; [exact Hf |]. apply H1. vm_compute. reflexivity.
Defined.

(** ** The staleness window at the first tier *)

(** C1, as the code has it: [Set(k, d, {fresh: 60s, stale: 30s})] at [t0]
    of a record that marshals, passes the size guard and is accepted by the
    store leaves the record in the store; at [t0 + 70s], on every state that
    holds the record, both [Get(k)] and [GetStale(k)] return the entry with
    [found = true] and leave the state alone; once the store has dropped
    entries, both return the entry or, if the key is gone, a miss.  The
    entry is no longer fresh, which the caller reads from [IsFresh], and
    neither method consults freshness. *)
Theorem staleness_window_is_served `{Codec} `{!CodecLaws}
  `{DurationSeconds} `{!DurationSecondsLaws}
  `{bigcache.Store} `{!bigcache.StoreLaws}
  (t0 : Z) (key : string) (d data : list Byte.byte) (bc : l1.BigCache) :
  clock_ok t0 →
  Marshal (setEntry t0 d (mkTTL (60 * Second) (30 * Second))) = Some data →
  Z.of_nat (length data) ≤ l1.maxEntrySize bc →
  (bigcache.Set_ t0 key data (l1.store bc)).1 = true →
  let written := l1.Set_ t0 key d (mkTTL (60 * Second) (30 * Second)) bc in
  let entry := mkEntry d (t0 + 90) (t0 + 60) t0 in
  l1.store written !! key = Some data ∧
  (∀ held : l1.BigCache,
     l1.store held !! key = Some data →
     l1.Get (t0 + 70) key held = ((Some entry, true), held) ∧
     l1.GetStale (t0 + 70) key held = ((Some entry, true), held)) ∧
  (∀ aged : l1.BigCache,
     l1.store aged ⊆ l1.store written →
     (l1.Get (t0 + 70) key aged).1
     = match l1.store aged !! key with
       | Some _ => (Some entry, true)
       | None => (None, false)
       end ∧
     (l1.GetStale (t0 + 70) key aged).1
     = match l1.store aged !! key with
       | Some _ => (Some entry, true)
       | None => (None, false)
       end) ∧
  IsFresh entry (t0 + 70) = false ∧
  IsExpired entry (t0 + 70) = false.
Proof.
  intros Hclock Hm Hlen Hok written entry.
  assert (setEntry t0 d (mkTTL (60 * Second) (30 * Second)) = entry) as He.
  { rewrite setEntry_whole; unfold MaxDurationSeconds; [| assumption | lia ..].
    unfold entry. f_equal; lia. }
  assert (l1.store written !! key = Some data) as Hk
    by (apply l1_Set_stored; assumption).
  rewrite He in Hm.
  assert (Unmarshal data = Some entry) as Hu
    by (apply (unmarshal_marshal entry); exact Hm).
  assert (t0 + 70 ≤ ExpiresAt entry) as Hlive by (cbn; lia).
  split; [exact Hk |]. split; [| split].
  - intros held Hheld.
    exact (l1_read_held (t0 + 70) key data entry held Hheld Hu Hlive).
  - intros aged Hsub.
    exact (l1_read_aged (t0 + 70) key data entry written aged Hk Hsub Hu Hlive).
  - unfold IsFresh, IsExpired. cbn.
    split; [apply Z.leb_gt | apply Z.ltb_ge]; lia.
Qed.

Lemma staleness_window_is_served_witness :
  let written := l1.Set_ sample.t0 sample.key sample.value sample.ttl sample.emptyL1 in
  l1.Get (sample.t0 + 70) sample.key written = ((Some sample.entry, true), written) ∧
  l1.GetStale (sample.t0 + 70) sample.key written
  = ((Some sample.entry, true), written) ∧
  IsFresh sample.entry (sample.t0 + 70) = false.
Proof.
  destruct (staleness_window_is_served sample.t0 sample.key sample.value
              (record_codec.encodeEntry
                 (setEntry sample.t0 sample.value sample.ttl))
              sample.emptyL1) as (Hk & Hheld & _ & HF & _).
  - unfold clock_ok. vm_compute. split; discriminate.
  - reflexivity.
  - vm_compute. discriminate.
  - reflexivity.
  - destruct (Hheld _ Hk) as [HG HS]. repeat split; assumption.
Defined.

(** C1 as stated fails: with a store that accepts and keeps the record, at
    [t0 + 70s] [Get] does not return [(nil, false)]. *)
Lemma staleness_window_get_counterexample :
  let written := l1.Set_ (H1 := KeepsEverything) sample.t0 sample.key sample.value
                   sample.ttl sample.emptyL1 in
  (l1.Get (sample.t0 + 70) sample.key written).1 = (Some sample.entry, true) ∧
  (l1.Get (sample.t0 + 70) sample.key written).1 ≠ (None, false).
Proof.
  assert ((l1.Get (sample.t0 + 70) sample.key
             (l1.Set_ (H1 := KeepsEverything) sample.t0 sample.key sample.value
                   sample.ttl sample.emptyL1)).1
          = (Some sample.entry, true)) as E by (vm_compute; reflexivity).
  cbn zeta. rewrite E. split; [reflexivity | discriminate].
Qed.

(** ** The orchestrator's loops *)

Section Loops.
Context {T : Type} `{!cache.Cache T}.

Abbreviation mk := (@multi.mkMultiCache T).

Lemma onTier_at {A} (pre post : list T) (c : T) (p : bool) (ev : multi.Event)
  (method : T → A * T) :
  multi.onTier (length pre) ev method (mk (pre ++ c :: post) p)
  = Some ((method c).1, mk (pre ++ (method c).2 :: post) p, [ev]).
Proof.
  unfold multi.onTier. cbn [multi.caches multi.enablePropagation].
  rewrite list_lookup_middle by reflexivity.
  destruct (method c) as [a c']. cbn [fst snd].
  replace (length pre) with (length pre + 0)%nat by lia.
  rewrite insert_app_r. reflexivity.
Qed.

Lemma forRange_onTier (f : T → T) (ev : nat → multi.Event) (p : bool)
  (todo : list T) :
  ∀ (done rest : list T),
    multi.forRange (length done) (length todo)
      (λ i, multi.onTier i (ev i) (λ c, (tt, f c)))
      (mk (done ++ todo ++ rest) p)
    = Some (tt, mk (done ++ (f <$> todo) ++ rest) p,
            ev <$> seq (length done) (length todo)).
Proof.
  induction todo as [| c todo IH]; intros done rest; [reflexivity |].
  cbn [length multi.forRange]. unfold multi.bind.
  change (done ++ (c :: todo) ++ rest) with (done ++ c :: (todo ++ rest)).
  rewrite onTier_at. cbn [fst snd].
  replace (done ++ f c :: todo ++ rest) with ((done ++ [f c]) ++ todo ++ rest)
    by (rewrite <- app_assoc; reflexivity).
  replace (Datatypes.S (length done)) with (length (done ++ [f c]))
    by (rewrite length_app; cbn; lia).
  rewrite IH. rewrite <- app_assoc, length_app, Nat.add_1_r. reflexivity.
Qed.

Lemma propagate_run now key e (pre rest : list T) (p : bool) :
  multi.propagateToEarlierCaches now key (Some e) (length pre) (mk (pre ++ rest) p)
  = if propagates e now
    then Some (tt,
               mk ((cache.Set_ now key (Data e) (RemainingTTL e now) <$> pre)
                   ++ rest) p,
               (λ j, multi.CallSet j key (Data e) (RemainingTTL e now))
                 <$> seq 0 (length pre))
    else Some (tt, mk (pre ++ rest) p, []).
Proof.
  unfold multi.propagateToEarlierCaches, propagates.
  destruct (IsExpired e now); [reflexivity |].
  destruct ((Fresh _ <=? 0) && (Stale _ <=? 0)); [reflexivity |].
  cbn [negb andb]. unfold multi.tierSet.
  exact (forRange_onTier (cache.Set_ now key (Data e) (RemainingTTL e now))
           (λ j, multi.CallSet j key (Data e) (RemainingTTL e now))
           p pre [] rest).
Qed.

Section Scan.
Variables (now : Z) (key : string).
Variable method : T → (option CacheEntry * bool) * T.
Variable ev : nat → multi.Event.
Variable lookup : nat → string → multi.M T (option CacheEntry * bool).
Hypothesis lookup_onTier : ∀ i, lookup i key = multi.onTier i (ev i) method.

Lemma scan_all_miss (p : bool) (todo : list T) :
  ∀ done,
    Forall (λ c, (method c).1.2 = false) todo →
    multi.scanTiers now lookup key (length done) (length todo)
      (mk (done ++ todo) p)
    = Some (multi.missResult, mk (done ++ (snd ∘ method <$> todo)) p,
            ev <$> seq (length done) (length todo)).
Proof.
  induction todo as [| c todo IH]; intros done Hmiss.
  - reflexivity.
  - apply Forall_cons in Hmiss as [Hc Hmiss].
    cbn [length multi.scanTiers]. unfold multi.bind at 1.
    rewrite lookup_onTier, onTier_at.
    destruct (method c) as [[entry found] c'] eqn:Hmethod.
    cbn [fst snd] in Hc |- *. subst found.
    replace (done ++ c' :: todo) with ((done ++ [c']) ++ todo)
      by (rewrite <- app_assoc; reflexivity).
    replace (Datatypes.S (length done)) with (length (done ++ [c']))
      by (rewrite length_app; cbn; lia).
    rewrite (IH (done ++ [c']) Hmiss).
    rewrite <- app_assoc, length_app, Nat.add_1_r.
    cbn. rewrite Hmethod. reflexivity.
Qed.

Lemma scan_first_hit (p : bool) (before : list T) (hit : T) (after : list T) :
  ∀ done,
    Forall (λ c, (method c).1.2 = false) before →
    (method hit).1.2 = true →
    multi.scanTiers now lookup key (length done)
      (length (before ++ hit :: after))
      (mk (done ++ before ++ hit :: after) p)
    = afterHit now key method ev p done before hit after.
Proof.
  induction before as [| c before IH]; intros done Hmiss Hhit.
  - cbn [app length multi.scanTiers]. unfold multi.bind at 1.
    rewrite lookup_onTier, onTier_at. unfold afterHit.
    cbn [length fmap list_fmap app]. rewrite Nat.add_0_r.
    destruct (method hit) as [[entry found] c'] eqn:Hmethod.
    cbn [fst snd] in Hhit |- *. subst found.
    unfold multi.bind, multi.propagationEnabled, multi.ret.
    cbn [multi.enablePropagation].
    destruct ((0 <? length done)%nat && p).
    + destruct (multi.propagateToEarlierCaches _ _ _ _ _) as [[[u promoted] sets]|];
        [| reflexivity].
      cbn. rewrite app_nil_r. reflexivity.
    + reflexivity.
  - apply Forall_cons in Hmiss as [Hc Hmiss].
    cbn [app length multi.scanTiers]. unfold multi.bind at 1.
    rewrite lookup_onTier, onTier_at.
    destruct (method c) as [[entry found] c'] eqn:Hmethod.
    cbn [fst snd] in Hc |- *. subst found.
    replace (done ++ c' :: before ++ hit :: after)
      with ((done ++ [c']) ++ before ++ hit :: after)
      by (rewrite <- app_assoc; reflexivity).
    replace (Datatypes.S (length done)) with (length (done ++ [c']))
      by (rewrite length_app; cbn; lia).
    rewrite (IH (done ++ [c']) Hmiss Hhit). unfold afterHit.
    rewrite <- !app_assoc, length_app. cbn [length app fmap list_fmap].
    rewrite Nat.add_1_r, Nat.add_succ_r. cbn [Nat.add].
    change ((snd ∘ method) c) with (method c).2. rewrite Hmethod. cbn [snd].
    destruct ((0 <? Datatypes.S (length done + length before))%nat && p).
    + destruct (multi.propagateToEarlierCaches _ _ _ _ _) as [[[u promoted] sets]|];
        reflexivity.
    + reflexivity.
Qed.

End Scan.

Lemma levelLookup_scan stale now key (p : bool) (cs : list T) :
  cs ≠ [] →
  levelLookup stale now key (mk cs p)
  = multi.scanTiers now
      (if stale then multi.tierGetStale now else multi.tierGet now)
      key 0 (length cs) (mk cs p).
Proof.
  intros Hne. destruct cs as [| c cs]; [done |].
  destruct stale; cbn [levelLookup];
    unfold multi.GetStaleWithLevel, multi.GetWithLevel, multi.bind at 1,
      multi.numCaches; cbn [multi.caches length Nat.eqb];
    destruct (multi.scanTiers _ _ _ _ _ _) as [[[r m] t]|]; reflexivity.
Qed.

Lemma lookup_is_onTier (stale : bool) (now : Z) (key : string) (i : nat) :
  (if stale then multi.tierGetStale (S := T) now else multi.tierGet now) i key
  = multi.onTier (S := T) i (tierEvent stale key i) (tierMethod stale now key).
Proof. destruct stale; reflexivity. Qed.

Lemma levelLookup_all_miss stale now key (p : bool) (cs : list T) :
  cs ≠ [] →
  Forall (λ c, (tierMethod stale now key c).1.2 = false) cs →
  levelLookup stale now key (mk cs p)
  = Some (multi.missResult,
          mk (snd ∘ tierMethod stale now key <$> cs) p,
          tierEvent stale key <$> seq 0 (length cs)).
Proof.
  intros Hne Hmiss. rewrite levelLookup_scan by assumption.
  exact (scan_all_miss now key _ _ _ (lookup_is_onTier stale now key) p cs []
           Hmiss).
Qed.

Lemma levelLookup_first_hit stale now key (p : bool)
  (before : list T) (hit : T) (after : list T) :
  Forall (λ c, (tierMethod stale now key c).1.2 = false) before →
  (tierMethod stale now key hit).1.2 = true →
  levelLookup stale now key (mk (before ++ hit :: after) p)
  = let method := tierMethod stale now key in
    let earlier := promotion now key (method hit).1.1 p (snd ∘ method <$> before) in
    Some ({| Entry := (method hit).1.1; Found := true;
             Level := CacheLevelFromIndex (Z.of_nat (length before)) |},
          mk (earlier.1 ++ (method hit).2 :: after) p,
          (tierEvent stale key <$> seq 0 (Datatypes.S (length before)))
          ++ earlier.2).
Proof.
  intros Hmiss Hhit.
  rewrite levelLookup_scan by (destruct before; discriminate).
  pose proof (scan_first_hit now key _ _ _ (lookup_is_onTier stale now key)
                p before hit after [] Hmiss Hhit) as Hscan.
  cbn [length app] in Hscan. rewrite Hscan. clear Hscan.
  unfold afterHit, promotion. cbn [length app Nat.add]. cbn zeta.
  set (method := tierMethod stale now key).
  rewrite length_fmap.
  destruct (method hit).1.1 as [e|].
  - destruct ((0 <? length before)%nat && p).
    + replace (length before) with (length (snd ∘ method <$> before)) at 1
        by apply length_fmap.
      rewrite propagate_run, length_fmap. cbn [andb].
      destruct (propagates e now); cbn [fst snd]; reflexivity.
    + cbn [andb fst snd]. rewrite app_nil_r. reflexivity.
  - destruct ((0 <? length before)%nat && p);
      cbn [fst snd multi.propagateToEarlierCaches multi.ret];
      rewrite app_nil_r; reflexivity.
Qed.

Lemma first_hit_split (found : T → bool) (cs : list T) :
  Forall (λ c, found c = false) cs ∨
  ∃ before hit after,
    cs = before ++ hit :: after ∧
    Forall (λ c, found c = false) before ∧ found hit = true.
Proof.
  induction cs as [| c cs IH]; [left; constructor |].
  destruct (found c) eqn:Hc.
  - right. exists [], c, cs. repeat split; [constructor | assumption].
  - destruct IH as [Hall | (before & hit & after & -> & Hmiss & Hhit)].
    + left. constructor; assumption.
    + right. exists (c :: before), hit, after.
      repeat split; [constructor |]; assumption.
Qed.

End Loops.

(** ** Reading through the tiers *)


Lemma CacheLevelFromIndex_decimal (index : Z) :
  0 ≤ index < int64_max →
  CacheLevelFromIndex index = String.append "L" (pretty (index + 1)).
Proof.
  intros Hi. unfold CacheLevelFromIndex.
  destruct (Z.ltb_spec index 0) as [Hneg | _]; [lia |].
  destruct index as [| [q | q |] | q]; try reflexivity;
    rewrite int64_wrap_id; try reflexivity;
    unfold is_int64, int64_min, int64_max in *; lia.
Qed.


Section Lookup.
Context {T : Type} `{!cache.Cache T}.

Abbreviation mk := (@multi.mkMultiCache T).


Lemma written_app (t1 t2 : list multi.Event) :
  written (t1 ++ t2) = written t1 ++ written t2.
Proof. apply omap_app. Qed.


Lemma written_reads stale key (indices : list nat) :
  written (tierEvent stale key <$> indices) = [].
Proof.
  induction indices as [| i indices IH]; [reflexivity |].
  cbn. destruct stale; cbn; exact IH.
Qed.


Lemma written_sets key val ttl (indices : list nat) :
  written ((λ j, multi.CallSet j key val ttl) <$> indices) = indices.
Proof.
  induction indices as [| i indices IH]; [reflexivity |]. cbn. f_equal. exact IH.
Qed.



End Lookup.



(** The run on the two sample tiers: the second tier answers, the entry is
    promoted into the first with the remaining TTL. *)
Example GetWithLevel_sample_run :
  ∃ mc',
    multi.GetWithLevel (sample.t0 + 10) sample.key
      (multi.mkMultiCache sample.tiers true)
    = Some ({| Entry := Some sample.entry; Found := true; Level := "L2" |}, mc',
            [multi.CallGet 0 sample.key; multi.CallGet 1 sample.key;
             multi.CallSet 0 sample.key sample.value
               (mkTTL (50 * Second) (30 * Second))]) ∧
    ∃ first, multi.caches mc' !! 0%nat = Some (inl first) ∧
      (l1.Get (sample.t0 + 10) sample.key first).1
      = (Some (mkEntry sample.value (sample.t0 + 90) (sample.t0 + 60)
                 (sample.t0 + 10)), true).
Proof.
  eexists. split; [vm_compute; reflexivity |].
  eexists. split; [reflexivity |]. vm_compute. reflexivity.
Qed.

(** ** Promotion *)

Lemma remaining_nonneg (e : CacheEntry) (now : Z) :
  span_fits (StaleAt e - now) →
  span_fits (ExpiresAt e - StaleAt e) →
  0 ≤ Fresh (RemainingTTL e now) ∧ 0 ≤ Stale (RemainingTTL e now).
Proof.
  intros Hf Hs. unfold RemainingTTL. cbn [Fresh Stale].
  rewrite !clamp_seconds_exact by assumption. unfold Second. lia.
Qed.

Lemma propagates_spec (e : CacheEntry) (now : Z) :
  span_fits (StaleAt e - now) →
  span_fits (ExpiresAt e - StaleAt e) →
  propagates e now = false ↔
  IsExpired e now = true ∨
  (Fresh (RemainingTTL e now) = 0 ∧ Stale (RemainingTTL e now) = 0).
Proof.
  intros Hf Hs. destruct (remaining_nonneg e now Hf Hs) as [Nf Ns].
  unfold propagates. destruct (IsExpired e now); cbn [negb andb].
  - split; [left; reflexivity | reflexivity].
  - destruct (Z.leb_spec (Fresh (RemainingTTL e now)) 0) as [Lf | Lf];
      destruct (Z.leb_spec (Stale (RemainingTTL e now)) 0) as [Ls | Ls];
      cbn [negb andb]; split; try discriminate; try reflexivity.
    + intros _. right. lia.
    + intros [? | [? ?]]; [discriminate | lia].
    + intros [? | [? ?]]; [discriminate | lia].
    + intros [? | [? ?]]; [discriminate | lia].
Qed.

(** C4: [propagateToEarlierCaches] writes nothing when the entry is expired
    or its remaining TTL is zero in both parts; otherwise it calls
    [Set(key, entry.Data, remainingTTL)] on the tiers below [foundAtIndex],
    each once and in order, and on no other tier. *)
Theorem propagate_writes_earlier_tiers {T : Type} `{!cache.Cache T}
  (now : Z) (key : string) (e : CacheEntry) (foundAtIndex : nat)
  (mc : multi.MultiCache T) :
  (foundAtIndex ≤ length (multi.caches mc))%nat →
  span_fits (StaleAt e - now) →
  span_fits (ExpiresAt e - StaleAt e) →
  let remaining := RemainingTTL e now in
  let run := multi.propagateToEarlierCaches now key (Some e) foundAtIndex mc in
  let skipped :=
    IsExpired e now = true ∨ (Fresh remaining = 0 ∧ Stale remaining = 0) in
  (skipped → run = Some (tt, mc, [])) ∧
  (¬ skipped →
   ∃ mc' trace,
     run = Some (tt, mc', trace) ∧
     trace = (λ j, multi.CallSet j key (Data e) remaining) <$> seq 0 foundAtIndex ∧
     written trace = seq 0 foundAtIndex ∧
     multi.enablePropagation mc' = multi.enablePropagation mc ∧
     length (multi.caches mc') = length (multi.caches mc) ∧
     (∀ j c, (j < foundAtIndex)%nat → multi.caches mc !! j = Some c →
        multi.caches mc' !! j = Some (cache.Set_ now key (Data e) remaining c)) ∧
     (∀ j, (foundAtIndex ≤ j)%nat →
        multi.caches mc' !! j = multi.caches mc !! j)).
Proof.
  intros Hi Hf Hs remaining run skipped.
  destruct mc as [cs p]. cbn [multi.caches multi.enablePropagation] in *.
  assert (run = if propagates e now
                then Some (tt,
                  multi.mkMultiCache
                    ((cache.Set_ now key (Data e) remaining <$> take foundAtIndex cs)
                     ++ drop foundAtIndex cs) p,
                  (λ j, multi.CallSet j key (Data e) remaining)
                    <$> seq 0 foundAtIndex)
                else Some (tt, multi.mkMultiCache cs p, [])) as Hrun.
  { pose proof (propagate_run now key e (take foundAtIndex cs)
                  (drop foundAtIndex cs) p) as R.
    rewrite (length_take_le cs foundAtIndex), !take_drop in R by lia.
    exact R. }
  pose proof (propagates_spec e now Hf Hs) as Hspec. fold remaining skipped in Hspec.
  split.
  - intros Hskip. apply Hspec in Hskip. rewrite Hrun, Hskip. reflexivity.
  - intros Hnot. destruct (propagates e now) eqn:Hp;
      [| exfalso; apply Hnot, Hspec; reflexivity].
    eexists _, _. split; [exact Hrun |]. split; [reflexivity |].
    split; [apply written_sets |]. cbn [multi.caches multi.enablePropagation].
    split; [reflexivity |].
    split; [rewrite length_app, length_fmap, length_take_le, length_drop by lia; lia |].
    split.
    + intros j c Hj Hc. rewrite lookup_app_l
        by (rewrite length_fmap, length_take_le by lia; exact Hj).
      rewrite list_lookup_fmap, lookup_take_lt by exact Hj. rewrite Hc. reflexivity.
    + intros j Hj. rewrite lookup_app_r
        by (rewrite length_fmap, length_take_le by lia; exact Hj).
      rewrite length_fmap, length_take_le by lia.
      rewrite lookup_drop. f_equal. lia.
Qed.

Lemma propagate_writes_earlier_tiers_witness :
  let mc := multi.mkMultiCache sample.tiers true in
  (∃ mc',
     multi.propagateToEarlierCaches (sample.t0 + 10) sample.key
       (Some sample.entry) 1 mc
     = Some (tt, mc',
             [multi.CallSet 0 sample.key sample.value
                (RemainingTTL sample.entry (sample.t0 + 10))]) ∧
     multi.caches mc' !! 1%nat = multi.caches mc !! 1%nat) ∧
  multi.propagateToEarlierCaches (sample.t0 + 100) sample.key
    (Some sample.entry) 1 mc
  = Some (tt, mc, []).
Proof.
  intros mc. split.
  - destruct (propagate_writes_earlier_tiers (sample.t0 + 10) sample.key
                sample.entry 1 mc) as [_ Hwrites].
    + cbn. lia.
    + vm_compute. split; discriminate.
    + vm_compute. split; discriminate.
    + destruct Hwrites as (mc' & trace & Hrun & -> & _ & _ & _ & _ & Hrest).
      * vm_compute. intros [Hx | [Hz _]]; discriminate.
      * exists mc'. split; [exact Hrun | apply Hrest; lia].
  - apply (propagate_writes_earlier_tiers (sample.t0 + 100) sample.key
             sample.entry 1 mc).
    + cbn. lia.
    + vm_compute. split; discriminate.
    + vm_compute. split; discriminate.
    + left. reflexivity.
Defined.

(** ** Writes and deletes through the tiers *)

Section FanOut.
Context {T : Type} `{!cache.Cache T}.

Lemma forRange_all (f : T → T) (ev : nat → multi.Event) (p : bool)
  (cs : list T) :
  multi.forRange 0 (length cs) (λ i, multi.onTier i (ev i) (λ c, (tt, f c)))
    (multi.mkMultiCache cs p)
  = Some (tt, multi.mkMultiCache (f <$> cs) p, ev <$> seq 0 (length cs)).
Proof.
  pose proof (forRange_onTier f ev p cs [] []) as R.
  cbn [app length] in R. rewrite !app_nil_r in R. exact R.
Qed.

End FanOut.

(** C7: with at least one tier, [Set] calls [Set(key, data, ttl)] on every
    tier and [Delete] calls [Delete(key)] on every tier, each tier once, in
    index order, whatever the tiers hold and whatever a tier does with the
    call. *)
Theorem set_and_delete_reach_every_tier {T : Type} `{!cache.Cache T}
  (now : Z) (key : string) (data : list Byte.byte) (ttl : TTL)
  (mc : multi.MultiCache T) :
  (1 ≤ length (multi.caches mc))%nat →
  let N := length (multi.caches mc) in
  multi.Set_ now key data ttl mc
  = Some (tt,
          multi.mkMultiCache (cache.Set_ now key data ttl <$> multi.caches mc)
            (multi.enablePropagation mc),
          (λ i, multi.CallSet i key data ttl) <$> seq 0 N) ∧
  multi.Delete key mc
  = Some (tt,
          multi.mkMultiCache (cache.Delete key <$> multi.caches mc)
            (multi.enablePropagation mc),
          (λ i, multi.CallDelete i key) <$> seq 0 N).
Proof.
  intros HN N. destruct mc as [cs p].
  cbn [multi.caches multi.enablePropagation] in *.
  destruct cs as [| c cs]; [cbn in HN; lia |].
  unfold multi.Set_, multi.Delete, multi.bind, multi.numCaches.
  cbn [multi.caches]. change (length (c :: cs) =? 0)%nat with false. cbn iota.
  unfold multi.tierSet, multi.tierDelete. subst N.
  rewrite (forRange_all (cache.Set_ now key data ttl)
             (λ i, multi.CallSet i key data ttl) p (c :: cs)).
  rewrite (forRange_all (cache.Delete key) (λ i, multi.CallDelete i key) p (c :: cs)).
  split; reflexivity.
Qed.

Lemma set_and_delete_reach_every_tier_witness :
  let mc := multi.mkMultiCache sample.tiers true in
  (∃ mc', multi.Set_ sample.t0 sample.key sample.value sample.ttl mc
          = Some (tt, mc',
                  [multi.CallSet 0 sample.key sample.value sample.ttl;
                   multi.CallSet 1 sample.key sample.value sample.ttl])) ∧
  (∃ mc', multi.Delete sample.key mc
          = Some (tt, mc',
                  [multi.CallDelete 0 sample.key; multi.CallDelete 1 sample.key])).
Proof.
  intros mc.
  destruct (set_and_delete_reach_every_tier sample.t0 sample.key sample.value
              sample.ttl mc) as [HS HD]; [cbn; lia |].
  split; eexists; [exact HS | exact HD].
Defined.

(** ** Degraded operation *)

(** C10: with no tier every orchestrator method returns normally:
    [GetWithLevel] and [GetStaleWithLevel] give [{nil, false, MISS}], [Get]
    and [GetStale] a miss, [Set] and [Delete] call no backend.  A backend
    [Set] whose entry does not serialise, or at the first tier serialises to
    more than [maxEntrySize] bytes, reports to logger and metrics and stores
    nothing; a first-tier [Set] whose record the store refuses reports an
    [upstream] error and keeps what the store left; [Set] has no result by
    which to signal the failure. *)
Theorem degrades_without_failure `{Codec} `{DurationSeconds}
  {T : Type} `{!cache.Cache T} {C : Type} `{!cache.KeyDbClient C}
  `{bigcache.Store}
  (now : Z) (key : string) (val : list Byte.byte) (ttl : TTL) (p : bool)
  (bc : l1.BigCache) (kc : l2.KeyDBCache C) :
  let mc : multi.MultiCache T := multi.mkMultiCache [] p in
  multi.GetWithLevel now key mc
  = Some (multi.missResult, mc,
          [multi.LoggerWarn "No caches available for get operation" key]) ∧
  multi.GetStaleWithLevel now key mc = Some (multi.missResult, mc, []) ∧
  multi.Get now key mc
  = Some ((None, false), mc,
          [multi.LoggerWarn "No caches available for get operation" key]) ∧
  multi.GetStale now key mc = Some ((None, false), mc, []) ∧
  multi.Set_ now key val ttl mc
  = Some (tt, mc, [multi.LoggerWarn "No caches available for set operation" key]) ∧
  multi.Delete key mc
  = Some (tt, mc,
          [multi.LoggerWarn "No caches available for delete operation" key]) ∧
  multi.missResult = {| Entry := None; Found := false; Level := CacheLevelMiss |} ∧
  (Marshal (setEntry now val ttl) = None →
     l1.Set_ now key val ttl bc
     = l1.report [cache.LogError "Failed to marshal cache entry" key;
                  cache.RecordCacheError "l1" "encode"] bc ∧
     l1.store (l1.Set_ now key val ttl bc) = l1.store bc ∧
     l2.Set_ now key val ttl kc
     = l2.report [cache.LogError "Failed to marshal L2 cache entry" key;
                  cache.RecordCacheError "l2" "encode"] kc ∧
     l2.client (l2.Set_ now key val ttl kc) = l2.client kc) ∧
  (∀ data, Marshal (setEntry now val ttl) = Some data →
     l1.maxEntrySize bc < Z.of_nat (length data) →
     l1.Set_ now key val ttl bc
     = l1.report [cache.LogWarn "Cache entry too large, skipping L1 cache" key;
                  cache.RecordCacheError "l1" "entry_too_large"] bc ∧
     l1.store (l1.Set_ now key val ttl bc) = l1.store bc) ∧
  (∀ data, Marshal (setEntry now val ttl) = Some data →
     Z.of_nat (length data) ≤ l1.maxEntrySize bc →
     (bigcache.Set_ now key data (l1.store bc)).1 = false →
     l1.Set_ now key val ttl bc
     = l1.report [cache.LogError "Failed to set cache entry" key;
                  cache.RecordCacheError "l1" "upstream"]
         (l1.withStore (bigcache.Set_ now key data (l1.store bc)).2 bc)).
Proof.
  intros mc. do 7 (split; [reflexivity |]). split; [| split].
  - intros Hm. unfold l1.Set_, l2.Set_. rewrite Hm. repeat split; reflexivity.
  - intros data Hm Hlen. unfold l1.Set_. rewrite Hm.
    destruct (Z.ltb_spec (l1.maxEntrySize bc) (Z.of_nat (length data))); [| lia].
    split; reflexivity.
  - intros data Hm Hlen Hno.
    rewrite (l1_Set_handed now key val ttl bc data Hm Hlen). cbn zeta.
    rewrite Hno. reflexivity.
Qed.

Lemma degrades_without_failure_witness :
  let small := l1.mkBigCache ∅ 3 [] in
  multi.Get sample.t0 sample.key
    (multi.mkMultiCache ([] : list l1.BigCache) true)
  = Some ((None, false), multi.mkMultiCache [] true,
          [multi.LoggerWarn "No caches available for get operation" sample.key]) ∧
  l1.store (l1.Set_ sample.t0 sample.key sample.value sample.ttl small) = ∅ ∧
  l1.store (l1.Set_ (H := rejectingCodec) sample.t0 sample.key sample.value
              sample.ttl sample.emptyL1) = ∅.
Proof.
  intros small.
  pose proof (degrades_without_failure (T := l1.BigCache)
                (C := map_client.MapClient) sample.t0 sample.key sample.value
                sample.ttl true small sample.emptyL2)
    as (_ & _ & HG & _ & _ & _ & _ & _ & Hbig & _).
  pose proof (degrades_without_failure (H := rejectingCodec) (T := l1.BigCache)
                (C := map_client.MapClient) sample.t0 sample.key sample.value
                sample.ttl true sample.emptyL1 sample.emptyL2)
    as (_ & _ & _ & _ & _ & _ & _ & Hrej & _ & _).
  split; [exact HG |]. split.
  - destruct (Hbig _ eq_refl) as [_ Hstore]; [vm_compute; reflexivity |].
    exact Hstore.
  - destruct (Hrej eq_refl) as (_ & Hstore & _). exact Hstore.
Defined.

(** ** When promotion happens *)

Section Gate.
Context {T : Type} `{!cache.Cache T}.

Lemma levelLookup_gated stale now key p before hit after :
  Forall (λ c, (tierMethod stale now key c).1.2 = false) before →
  (tierMethod stale now key hit).1.2 = true →
  gatedPromotion now key (tierMethod stale now key) (tierEvent stale key)
    (levelLookup stale now key) p before hit after.
Proof.
  intros Hmiss Hhit. unfold gatedPromotion. cbn zeta.
  assert (levelLookup stale now key
            (multi.mkMultiCache (before ++ hit :: after) p)
          = afterHit now key (tierMethod stale now key) (tierEvent stale key)
              p [] before hit after) as Hrun.
  { rewrite levelLookup_scan by (destruct before; discriminate).
    exact (scan_first_hit now key _ _ _ (lookup_is_onTier stale now key)
             p before hit after [] Hmiss Hhit). }
  split; [exact Hrun |]. split.
  - intros ->. rewrite Hrun. unfold afterHit. rewrite andb_false_r.
    split; [reflexivity | apply written_reads].
  - intros -> Hlasting j c' Hj Hc' later.
    cbn [multi.caches] in Hc'.
    rewrite lookup_app_l in Hc' by (rewrite length_fmap; exact Hj).
    rewrite list_lookup_fmap in Hc'.
    destruct (before !! j) as [c|] eqn:Hc; [| discriminate].
    cbn in Hc'. injection Hc' as <-.
    apply Hlasting. rewrite Forall_forall in Hmiss. apply Hmiss.
    apply list_elem_of_lookup. eauto.
Qed.

Lemma written_promotion now key entry p (earlier : list T) :
  written (promotion now key entry p earlier).2 ≠ [] →
  p = true ∧ (0 < length earlier)%nat ∧
  written (promotion now key entry p earlier).2 = seq 0 (length earlier).
Proof.
  unfold promotion. destruct entry as [e|]; [| intros Hw; contradiction Hw; reflexivity].
  destruct ((0 <? length earlier)%nat && p && propagates e now) eqn:Hcond;
    [| intros Hw; contradiction Hw; reflexivity].
  intros _. apply andb_prop in Hcond as [Hcond _].
  apply andb_prop in Hcond as [Hpos ->]. apply Nat.ltb_lt in Hpos.
  cbn [snd]. rewrite written_sets. auto.
Qed.

Lemma levelLookup_writesOnlyOnLaterHit stale now key :
  writesOnlyOnLaterHit (levelLookup stale now key).
Proof.
  intros [cs p] result mc' trace Hrun Hw.
  destruct (first_hit_split (λ c, (tierMethod stale now key c).1.2) cs)
    as [Hall | (before & hit & after & -> & Hmiss & Hhit)].
  - exfalso. apply Hw. destruct cs as [| c cs].
    + destruct stale; cbn in Hrun; injection Hrun as <- <- <-; reflexivity.
    + rewrite levelLookup_all_miss in Hrun by (discriminate || assumption).
      injection Hrun as <- <- <-.
      exact (written_reads stale key (seq 0 (length (c :: cs)))).
  - rewrite levelLookup_first_hit in Hrun by assumption.
    cbn zeta in Hrun.
    set (reads := tierEvent stale key <$> seq 0 (Datatypes.S (length before)))
      in Hrun.
    set (earlier := promotion now key _ p _) in Hrun.
    assert (result = {| Entry := (tierMethod stale now key hit).1.1;
                        Found := true;
                        Level := CacheLevelFromIndex (Z.of_nat (length before)) |})
      as -> by congruence.
    assert (trace = reads ++ earlier.2) as -> by congruence.
    clear Hrun.
    assert (written reads = []) as Hreads by apply written_reads.
    rewrite written_app, Hreads in Hw |- *. cbn [app] in Hw |- *.
    unfold earlier in Hw |- *.
    apply written_promotion in Hw as (-> & Hpos & Hw).
    rewrite length_fmap in Hpos, Hw.
    cbn [multi.enablePropagation Found Level].
    split; [reflexivity |]. split; [reflexivity |].
    exists (length before). auto.
Qed.

End Gate.

Lemma l1_miss_leaves_absent `{Codec} `{DurationSeconds} (stale : bool)
  (now : Z) (key : string) (bc : l1.BigCache) :
  ((if stale then l1.GetStale now key bc else l1.Get now key bc).1).2 = false →
  l1.store (if stale then l1.GetStale now key bc else l1.Get now key bc).2 !! key
  = None.
Proof.
  destruct stale; unfold l1.GetStale, l1.Get;
    destruct (l1.store bc !! key) as [data|] eqn:Hk;
    try (intros _; exact Hk);
    (destruct (Unmarshal data) as [entry|];
     [destruct (IsExpired entry now); [| discriminate] |]);
    intros _; apply lookup_delete_eq.
Qed.

Lemma l1_absent_misses `{Codec} `{DurationSeconds}
  (later : Z) (key : string) (bc : l1.BigCache) :
  l1.store bc !! key = None → (l1.Get later key bc).1.2 = false.
Proof. intros Hk. unfold l1.Get. rewrite Hk. reflexivity. Qed.

Lemma l1_miss_is_lasting `{Codec} `{DurationSeconds} (stale : bool)
  (now later : Z) (key : string) (bc : l1.BigCache) :
  ((if stale then l1.GetStale now key bc else l1.Get now key bc).1).2 = false →
  (l1.Get later key
     (if stale then l1.GetStale now key bc else l1.Get now key bc).2).1.2 = false.
Proof.
  intros Hmiss. apply l1_absent_misses, l1_miss_leaves_absent, Hmiss.
Qed.

(** C5: in [GetWithLevel] and in [GetStaleWithLevel] alike, the promotion is
    run exactly when the hit is at a positive index and the flag is set; a
    call that writes to any tier has the flag set and a hit at a positive
    index; with the flag unset no tier is written, and an earlier tier whose
    miss is lasting, as the first tier's is, still misses afterwards. *)
Theorem promotion_needs_later_hit_and_flag {T : Type} `{!cache.Cache T}
  (now : Z) (key : string) (p : bool) (before : list T) (hit : T)
  (after : list T) :
  (Forall (λ c, (cache.Get now key c).1.2 = false) before →
   (cache.Get now key hit).1.2 = true →
   gatedPromotion now key (cache.Get now key) (λ i, multi.CallGet i key)
     (multi.GetWithLevel now key) p before hit after) ∧
  (Forall (λ c, (cache.GetStale now key c).1.2 = false) before →
   (cache.GetStale now key hit).1.2 = true →
   gatedPromotion now key (cache.GetStale now key)
     (λ i, multi.CallGetStale i key)
     (multi.GetStaleWithLevel now key) p before hit after) ∧
  writesOnlyOnLaterHit (multi.GetWithLevel (S := T) now key) ∧
  writesOnlyOnLaterHit (multi.GetStaleWithLevel (S := T) now key).
Proof.
  split; [| split; [| split]].
  - exact (levelLookup_gated false now key p before hit after).
  - exact (levelLookup_gated true now key p before hit after).
  - exact (levelLookup_writesOnlyOnLaterHit false now key).
  - exact (levelLookup_writesOnlyOnLaterHit true now key).
Qed.

Lemma promotion_needs_later_hit_and_flag_witness :
  let mc := multi.mkMultiCache [sample.emptyL1; sample.holdingL1] false in
  ∃ mc',
    multi.GetWithLevel (sample.t0 + 10) sample.key mc
    = Some ({| Entry := Some sample.entry; Found := true; Level := "L2" |}, mc',
            [multi.CallGet 0 sample.key; multi.CallGet 1 sample.key]) ∧
    ∀ first, multi.caches mc' !! 0%nat = Some first →
             ∀ later, (l1.Get later sample.key first).1.2 = false.
Proof.
  destruct (promotion_needs_later_hit_and_flag (T := l1.BigCache)
              (sample.t0 + 10) sample.key false
              [sample.emptyL1] sample.holdingL1 []) as [Hget _].
  destruct Hget as (_ & Hoff & Hlasting).
  - constructor; [vm_compute; reflexivity | constructor].
  - vm_compute. reflexivity.
  - destruct (Hoff eq_refl) as [Hrun _].
    eexists. split.
    + etransitivity; [exact Hrun |]. vm_compute. reflexivity.
    + intros first Hfirst later.
      apply (Hlasting eq_refl
               (λ c later', l1_miss_is_lasting false (sample.t0 + 10) later'
                              sample.key c)
               0%nat first); [cbn; lia | exact Hfirst].
Defined.

(** ** Runs on the sample values *)

Example CacheLevelFromIndex_table :
  CacheLevelFromIndex <$> [0; 1; 2; 3; 10; -1; -5; -100]
  = ["L1"; "L2"; "L3"; "L4"; "L11"; "L1"; "L1"; "L1"].
Proof. vm_compute. reflexivity. Qed.

(** Round trip: ten seconds after the write the entry is served fresh. *)
Example l1_round_trip :
  let written := l1.Set_ sample.t0 sample.key sample.value sample.ttl sample.emptyL1 in
  (l1.Get (sample.t0 + 10) sample.key written).1 = (Some sample.entry, true) ∧
  IsFresh sample.entry (sample.t0 + 10) = true.
Proof. vm_compute. split; reflexivity. Qed.

(** A record within [maxEntrySize] that the store refuses: [Set] reports an
    [upstream] error, the store holds nothing and the read misses. *)
Example l1_store_refuses :
  let written := l1.Set_ (H1 := ShardLimited 16) sample.t0 sample.key
                   sample.value sample.ttl sample.holdingL1 in
  written
  = l1.report [cache.LogError "Failed to set cache entry" sample.key;
               cache.RecordCacheError "l1" "upstream"] sample.emptyL1 ∧
  (l1.Get (sample.t0 + 10) sample.key written).1 = (None, false).
Proof. vm_compute. split; reflexivity. Qed.

(** Hard expiry: past [ExpiresAt] both reads miss and purge the key. *)
Example l1_hard_expiry :
  l1.Get (sample.t0 + 95) sample.key sample.holdingL1
  = ((None, false), sample.emptyL1) ∧
  l1.GetStale (sample.t0 + 95) sample.key sample.holdingL1
  = ((None, false), sample.emptyL1).
Proof. vm_compute. split; reflexivity. Qed.

(** Corruption at the first tier: the second tier answers and the first
    tier has purged the key and counted a decode error. *)
Example corrupt_first_tier_run :
  multi.GetWithLevel (sample.t0 + 10) sample.key
    (multi.mkMultiCache [sample.corruptL1; sample.holdingL1] false)
  = Some ({| Entry := Some sample.entry; Found := true; Level := "L2" |},
          multi.mkMultiCache
            [l1.report [cache.LogWarn "Failed to unmarshal L1 cache entry" sample.key;
                        cache.RecordCacheError "l1" "decode"] sample.emptyL1;
             sample.holdingL1] false,
          [multi.CallGet 0 sample.key; multi.CallGet 1 sample.key]).
Proof. vm_compute. reflexivity. Qed.

(** A transport error at the second tier reads as a miss and is logged. *)
Example l2_transport_error :
  let down := l2.mkKeyDBCache
                (map_client.mkMapClient
                   {[ sample.key := record_codec.encodeEntry sample.entry ]} false) [] in
  l2.Get (sample.t0 + 10) sample.key down
  = ((None, false), l2.report [cache.LogWarn "L2 cache get failed" sample.key] down).
Proof. vm_compute. reflexivity. Qed.

(** * Further properties of the code *)

(** ** Levels *)

(** X1: tier indices that fit a Go [int] get distinct levels, none of which
    is [MISS]; every negative index gets the level of index 0. *)
Theorem level_identifies_tier (i j : Z) :
  0 ≤ i < int64_max → 0 ≤ j < int64_max →
  (CacheLevelFromIndex i = CacheLevelFromIndex j → i = j) ∧
  CacheLevelFromIndex i ≠ CacheLevelMiss ∧
  (∀ negative, negative < 0 →
     CacheLevelFromIndex negative = CacheLevelFromIndex 0).
Proof.
  intros Hi Hj. split; [| split].
  - rewrite !CacheLevelFromIndex_decimal by assumption.
    intros Heq. cbn in Heq. injection Heq as Heq.
    change (pretty (i + 1) = pretty (j + 1)) in Heq.
    apply pretty_Z_inj in Heq. lia.
  - rewrite CacheLevelFromIndex_decimal by assumption. discriminate.
  - intros negative Hneg. unfold CacheLevelFromIndex.
    destruct (Z.ltb_spec negative 0); [reflexivity | lia].
Qed.

Lemma level_identifies_tier_witness :
  CacheLevelFromIndex 2 ≠ CacheLevelFromIndex 5 ∧
  CacheLevelFromIndex 2 ≠ CacheLevelMiss ∧
  CacheLevelFromIndex (-7) = CacheLevelFromIndex 0.
Proof.
  destruct (level_identifies_tier 2 5) as (Hinj & Hmiss & Hneg);
    [unfold int64_max; lia .. |].
  split; [intros Heq; apply Hinj in Heq; discriminate |].
  split; [exact Hmiss |]. apply Hneg. lia.
Defined.

(** ** The first tier: writes, reads and deletes together *)

Section FirstTier.
Context `{Codec} `{!CodecLaws} `{DurationSeconds} `{!DurationSecondsLaws}.

Lemma l1_Get_expired now key data entry bc :
  l1.store bc !! key = Some data →
  Unmarshal data = Some entry →
  ExpiresAt entry < now →
  l1.Get now key bc = ((None, false), l1.storeDelete key bc) ∧
  l1.GetStale now key bc = ((None, false), l1.storeDelete key bc).
Proof.
  intros Hk Hu He. unfold l1.Get, l1.GetStale. rewrite Hk, Hu.
  unfold IsExpired. destruct (Z.ltb_spec (ExpiresAt entry) now); [done | lia].
Qed.

End FirstTier.

(** X2: a record that [Set] hands to the store and the store accepts is
    held under the key.  On every state that holds the record, at every
    instant up to [ExpiresAt], [Get] and [GetStale] return the entry that
    [Set] built, with the data unchanged, and leave the backend as it was;
    at any later instant both miss and the key is gone from the store.
    Once the store has dropped entries, a read up to [ExpiresAt] returns
    that entry or, if the key is gone, a miss. *)
Theorem l1_set_then_get `{Codec} `{!CodecLaws} `{DurationSeconds}
  `{bigcache.Store} `{!bigcache.StoreLaws}
  (t0 now : Z) (key : string) (val data : list Byte.byte) (ttl : TTL)
  (bc : l1.BigCache) :
  Marshal (setEntry t0 val ttl) = Some data →
  Z.of_nat (length data) ≤ l1.maxEntrySize bc →
  (bigcache.Set_ t0 key data (l1.store bc)).1 = true →
  let entry := setEntry t0 val ttl in
  let written := l1.Set_ t0 key val ttl bc in
  Data entry = val ∧
  l1.store written !! key = Some data ∧
  (∀ held : l1.BigCache,
     l1.store held !! key = Some data →
     (now ≤ ExpiresAt entry →
        l1.Get now key held = ((Some entry, true), held) ∧
        l1.GetStale now key held = ((Some entry, true), held)) ∧
     (ExpiresAt entry < now →
        (l1.Get now key held).1 = (None, false) ∧
        (l1.GetStale now key held).1 = (None, false) ∧
        l1.store (l1.Get now key held).2 !! key = None ∧
        l1.store (l1.GetStale now key held).2 !! key = None)) ∧
  (∀ aged : l1.BigCache,
     l1.store aged ⊆ l1.store written →
     now ≤ ExpiresAt entry →
     (l1.Get now key aged).1
     = match l1.store aged !! key with
       | Some _ => (Some entry, true)
       | None => (None, false)
       end ∧
     (l1.GetStale now key aged).1
     = match l1.store aged !! key with
       | Some _ => (Some entry, true)
       | None => (None, false)
       end).
Proof.
  intros Hm Hlen Hok entry written.
  assert (l1.store written !! key = Some data) as Hk
    by (apply l1_Set_stored; assumption).
  assert (Unmarshal data = Some entry) as Hu
    by (apply (unmarshal_marshal entry); exact Hm).
  split; [reflexivity |]. split; [exact Hk |]. split.
  - intros held Hheld. split.
    + intros He. exact (l1_read_held now key data entry held Hheld Hu He).
    + intros He.
      destruct (l1_Get_expired now key data entry held Hheld Hu He) as [-> ->].
      cbn [fst snd l1.store l1.storeDelete].
      rewrite lookup_delete_eq. repeat split; reflexivity.
  - intros aged Hsub He.
    exact (l1_read_aged now key data entry written aged Hk Hsub Hu He).
Qed.

Lemma l1_set_then_get_witness :
  let written := l1.Set_ sample.t0 sample.key sample.value sample.ttl sample.emptyL1 in
  l1.Get (sample.t0 + 90) sample.key written = ((Some sample.entry, true), written) ∧
  (l1.Get (sample.t0 + 91) sample.key written).1 = (None, false) ∧
  l1.store (l1.Get (sample.t0 + 91) sample.key written).2 !! sample.key = None.
Proof.
  intros written.
  pose proof (l1_set_then_get sample.t0 (sample.t0 + 90) sample.key sample.value
                (record_codec.encodeEntry
                   (setEntry sample.t0 sample.value sample.ttl))
                sample.ttl sample.emptyL1 eq_refl) as Hlive.
  pose proof (l1_set_then_get sample.t0 (sample.t0 + 91) sample.key sample.value
                (record_codec.encodeEntry
                   (setEntry sample.t0 sample.value sample.ttl))
                sample.ttl sample.emptyL1 eq_refl) as Hdead.
  destruct Hlive as (_ & Hk & Hlive & _);
    [vm_compute; discriminate | reflexivity |].
  destruct Hdead as (_ & _ & Hdead & _);
    [vm_compute; discriminate | reflexivity |].
  destruct (Hlive written Hk) as [Hlive' _].
  destruct (Hdead written Hk) as [_ Hdead'].
  destruct Hlive' as [HG _]; [vm_compute; discriminate |].
  destruct Hdead' as (HM & _ & HK & _); [vm_compute; reflexivity |].
  split; [exact HG |]. split; [exact HM | exact HK].
Defined.


(** X4: a read or a delete of one key leaves every other key's stored
    bytes as they were, so a read of another key returns what it returned
    before.  After a [Set] of one key, another key holds the bytes it held
    or has been dropped by the store, so a read of it returns what it
    returned before or a miss; a [Set] that does not reach the store leaves
    the contents alone.  No operation changes [maxEntrySize]. *)
Theorem l1_other_keys_untouched `{Codec} `{DurationSeconds}
  `{bigcache.Store} `{!bigcache.StoreLaws}
  (now later : Z) (key other : string) (val : list Byte.byte) (ttl : TTL)
  (bc : l1.BigCache) :
  key ≠ other →
  Forall (λ bc', l1.store bc' !! other = l1.store bc !! other ∧
                 l1.maxEntrySize bc' = l1.maxEntrySize bc ∧
                 (l1.Get later other bc').1 = (l1.Get later other bc).1)
    [(l1.Get now key bc).2; (l1.GetStale now key bc).2; l1.Delete key bc] ∧
  (let written := l1.Set_ now key val ttl bc in
   l1.maxEntrySize written = l1.maxEntrySize bc ∧
   (l1.store written !! other = l1.store bc !! other ∨
    l1.store written !! other = None) ∧
   ((l1.Get later other written).1 = (l1.Get later other bc).1 ∨
    (l1.Get later other written).1 = (None, false)) ∧
   (∀ data, Marshal (setEntry now val ttl) = Some data →
            Z.of_nat (length data) ≤ l1.maxEntrySize bc →
            l1.store written = (bigcache.Set_ now key data (l1.store bc)).2) ∧
   (Marshal (setEntry now val ttl) = None → l1.store written = l1.store bc) ∧
   (∀ data, Marshal (setEntry now val ttl) = Some data →
            l1.maxEntrySize bc < Z.of_nat (length data) →
            l1.store written = l1.store bc)).
Proof.
  intros Hne.
  assert (∀ bc', l1.store bc' !! other = l1.store bc !! other →
                 (l1.Get later other bc').1 = (l1.Get later other bc).1) as Hread.
  { intros bc' Hs. rewrite !l1_Get_result, Hs. reflexivity. }
  assert (∀ bc', l1.store bc' !! other = l1.store bc !! other →
                 l1.maxEntrySize bc' = l1.maxEntrySize bc →
                 l1.store bc' !! other = l1.store bc !! other ∧
                 l1.maxEntrySize bc' = l1.maxEntrySize bc ∧
                 (l1.Get later other bc').1 = (l1.Get later other bc).1) as Hall
    by (intros bc' Hs Hm; auto).
  split.
  - repeat (apply Forall_cons; split); [apply Hall .. | constructor].
    + unfold l1.Get. destruct (l1.store bc !! key) as [data|]; [| reflexivity].
      destruct (Unmarshal data) as [entry|];
        [destruct (IsExpired entry now) |]; cbn; try reflexivity;
        apply lookup_delete_ne; exact Hne.
    + unfold l1.Get. destruct (l1.store bc !! key) as [data|]; [| reflexivity].
      destruct (Unmarshal data) as [entry|];
        [destruct (IsExpired entry now) |]; reflexivity.
    + unfold l1.GetStale. destruct (l1.store bc !! key) as [data|]; [| reflexivity].
      destruct (Unmarshal data) as [entry|];
        [destruct (IsExpired entry now) |]; cbn; try reflexivity;
        apply lookup_delete_ne; exact Hne.
    + unfold l1.GetStale. destruct (l1.store bc !! key) as [data|]; [| reflexivity].
      destruct (Unmarshal data) as [entry|];
        [destruct (IsExpired entry now) |]; reflexivity.
    + apply lookup_delete_ne. exact Hne.
    + reflexivity.
  - cbn zeta.
    assert (l1.store (l1.Set_ now key val ttl bc) !! other
            = l1.store bc !! other ∨
            l1.store (l1.Set_ now key val ttl bc) !! other = None) as Hkept.
    { destruct (Marshal (setEntry now val ttl)) as [data|] eqn:Hm;
        [| left; unfold l1.Set_; rewrite Hm; reflexivity].
      destruct (Z.ltb_spec (l1.maxEntrySize bc) (Z.of_nat (length data)))
        as [Hbig | Hfit].
      - left. unfold l1.Set_. rewrite Hm.
        destruct (Z.ltb_spec (l1.maxEntrySize bc) (Z.of_nat (length data)));
          [reflexivity | lia].
      - rewrite (l1_Set_contents now key val ttl bc data Hm Hfit).
        destruct ((bigcache.Set_ now key data (l1.store bc)).2 !! other)
          as [bytes|] eqn:Ho; [left | right; reflexivity].
        symmetry. apply (bigcache.others_kept_or_dropped now key data);
          [congruence | exact Ho]. }
    split; [apply l1_Set_keeps_limit |]. split; [exact Hkept |].
    split; [| split; [| split]].
    + destruct Hkept as [Hsame | Hgone].
      * left. apply Hread. exact Hsame.
      * right. rewrite l1_Get_result, Hgone. reflexivity.
    + intros data Hm Hfit. exact (l1_Set_contents now key val ttl bc data Hm Hfit).
    + intros Hm. unfold l1.Set_. rewrite Hm. reflexivity.
    + intros data Hm Hbig. unfold l1.Set_. rewrite Hm.
      destruct (Z.ltb_spec (l1.maxEntrySize bc) (Z.of_nat (length data)));
        [reflexivity | lia].
Qed.

Lemma l1_other_keys_untouched_witness :
  let bc := sample.holdingL1 in
  (l1.Get (sample.t0 + 10) sample.key (l1.Delete "other-key" bc)).1
  = (Some sample.entry, true).
Proof.
  intros bc.
  pose proof (l1_other_keys_untouched sample.t0 (sample.t0 + 10) "other-key"
                sample.key sample.value sample.ttl bc) as Hframe.
  assert ("other-key" ≠ sample.key) as Hne by discriminate.
  destruct (Hframe Hne) as [Hreads _].
  rewrite !Forall_cons in Hreads.
  destruct Hreads as (_ & _ & (_ & _ & Hread) & _).
  rewrite Hread. vm_compute. reflexivity.
Defined.

(** X5: a hit at the first tier carries an entry that has not expired and
    leaves the backend exactly as it was; after a miss the key is absent
    from the store.  On bytes that do not decode [Get] reports a warning and
    a decode error, [GetStale] purges without reporting. *)
Theorem l1_read_effects `{Codec} `{DurationSeconds}
  (now : Z) (key : string) (bc : l1.BigCache) :
  Forall (λ read : (option CacheEntry * bool) * l1.BigCache,
            (read.1.2 = true →
               read.2 = bc ∧
               ∃ entry, read.1.1 = Some entry ∧ IsExpired entry now = false) ∧
            (read.1.2 = false →
               read.1.1 = None ∧ l1.store read.2 !! key = None))
    [l1.Get now key bc; l1.GetStale now key bc] ∧
  l1.sink (l1.GetStale now key bc).2 = l1.sink bc ∧
  (∀ data, l1.store bc !! key = Some data → Unmarshal data = None →
     l1.sink (l1.Get now key bc).2
     = l1.sink bc ++ [cache.LogWarn "Failed to unmarshal L1 cache entry" key;
                      cache.RecordCacheError "l1" "decode"]) ∧
  (∀ data entry, l1.store bc !! key = Some data → Unmarshal data = Some entry →
     l1.sink (l1.Get now key bc).2 = l1.sink bc).
Proof.
  split; [| split; [| split]].
  - repeat (apply Forall_cons; split); [| | constructor];
      unfold l1.Get, l1.GetStale;
      destruct (l1.store bc !! key) as [data|] eqn:Hk; cbn [fst snd];
      try (split; [discriminate | intros _; split; [reflexivity | exact Hk]]);
      (destruct (Unmarshal data) as [entry|];
       [destruct (IsExpired entry now) eqn:He |]); cbn [fst snd];
      try (split; [discriminate |
                   intros _; split; [reflexivity | apply lookup_delete_eq]]);
      (split; [intros _; split; [reflexivity | eauto] | discriminate]).
  - unfold l1.GetStale. destruct (l1.store bc !! key) as [data|]; [| reflexivity].
    destruct (Unmarshal data) as [entry|];
      [destruct (IsExpired entry now) |]; reflexivity.
  - intros data Hk Hu. unfold l1.Get. rewrite Hk, Hu. reflexivity.
  - intros data entry Hk Hu. unfold l1.Get. rewrite Hk, Hu.
    destruct (IsExpired entry now); reflexivity.
Qed.

(** ** The second tier *)

(** X6: at the second tier a read deletes the key at the server exactly
    when the reply carries bytes that cannot be served (they do not decode,
    or the entry has expired); on a hit, on [redis.Nil] and on a client
    error no delete is sent.  A hit carries an entry that has not expired
    and reports nothing. *)
Theorem l2_read_effects `{Codec} `{DurationSeconds}
  {C : Type} `{!cache.KeyDbClient C}
  (now : Z) (key : string) (kc : l2.KeyDBCache C) :
  let reply := (cache.ClientGet key (l2.client kc)).1 in
  let afterGet := (cache.ClientGet key (l2.client kc)).2 in
  Forall (λ read : (option CacheEntry * bool) * l2.KeyDBCache C,
            l2.client read.2
            = match replyPayload reply with
              | Some data =>
                match servable now (Some data) with
                | Some _ => afterGet
                | None => (cache.ClientDel key afterGet).2
                end
              | None => afterGet
              end ∧
            (read.1.2 = true →
               l2.sink read.2 = l2.sink kc ∧
               ∃ entry, read.1.1 = Some entry ∧ IsExpired entry now = false) ∧
            (read.1.2 = false → read.1.1 = None))
    [l2.Get now key kc; l2.GetStale now key kc].
Proof.
  intros reply afterGet. subst reply afterGet.
  repeat (apply Forall_cons; split); [| | constructor];
    unfold l2.Get, l2.GetStale, servable;
    destruct (cache.ClientGet key (l2.client kc)) as [[| | data] c];
    cbn [fst snd replyPayload];
    try (split; [reflexivity | split; [discriminate | reflexivity]]);
    (destruct (Unmarshal data) as [entry|];
     [destruct (IsExpired entry now) eqn:He |]); cbn [fst snd];
    try (split; [reflexivity | split; [discriminate | reflexivity]]);
    (split; [reflexivity |
             split; [intros _; split; [reflexivity | eauto] | discriminate]]).
Qed.

(** X7: for a TTL of whole, non-negative seconds the expiration that [Set]
    gives the server is the lifetime of the stored entry,
    [(ExpiresAt - CreatedAt)] seconds, so the server drops the key when the
    entry reaches its hard expiry; a failed client call is reported and not
    signalled. *)
Theorem l2_set_expiration_is_entry_lifetime `{Codec}
  `{DurationSeconds} `{!DurationSecondsLaws}
  {C : Type} `{!cache.KeyDbClient C}
  (now fresh stale : Z) (key : string) (val data : list Byte.byte)
  (kc : l2.KeyDBCache C) :
  clock_ok now →
  0 ≤ fresh → 0 ≤ stale → fresh + stale ≤ MaxDurationSeconds →
  let ttl := mkTTL (fresh * Second) (stale * Second) in
  let entry := setEntry now val ttl in
  Marshal entry = Some data →
  let call := cache.ClientSet key data
                ((ExpiresAt entry - CreatedAt entry) * Second) (l2.client kc) in
  l2.client (l2.Set_ now key val ttl kc) = call.2 ∧
  l2.sink (l2.Set_ now key val ttl kc)
  = l2.sink kc ++ (if call.1 then []
                   else [cache.LogWarn "Failed to set L2 cache entry" key;
                         cache.RecordCacheError "l2" "redis"]).
Proof.
  intros Hnow Hf Hs Hsum ttl entry Hm call.
  unfold MaxDurationSeconds in Hsum.
  assert (entry = mkEntry val (now + fresh + stale) (now + fresh) now) as He
    by (apply setEntry_whole; unfold MaxDurationSeconds; [assumption | lia ..]).
  assert (int64_wrap (Fresh ttl + Stale ttl)
          = (ExpiresAt entry - CreatedAt entry) * Second) as Hexp.
  { rewrite He. cbn [Fresh Stale ttl ExpiresAt CreatedAt].
    rewrite int64_wrap_id
      by (unfold is_int64, int64_min, int64_max, Second; lia).
    lia. }
  unfold l2.Set_. fold ttl entry. rewrite Hm, Hexp. fold call.
  destruct call as [[|] c]; cbn [fst snd l2.client l2.sink l2.withClient l2.report];
    rewrite ?app_nil_r; split; reflexivity.
Qed.

Lemma l2_set_expiration_is_entry_lifetime_witness :
  map_client.kv (l2.client (l2.Set_ sample.t0 sample.key sample.value sample.ttl sample.emptyL2))
    !! sample.key
  = Some (record_codec.encodeEntry sample.entry).
Proof.
  destruct (l2_set_expiration_is_entry_lifetime (C := map_client.MapClient)
              sample.t0 60 30 sample.key sample.value
              (record_codec.encodeEntry sample.entry) sample.emptyL2)
    as [Hclient _].
  - unfold clock_ok. vm_compute. split; discriminate.
  - lia.
  - lia.
  - vm_compute. discriminate.
  - reflexivity.
  - change sample.ttl with (mkTTL (60 * Second) (30 * Second)).
    rewrite Hclient. vm_compute. reflexivity.
Defined.

(** X8: when the client accepts the write and later returns the same bytes,
    [Get] and [GetStale] return the entry that [Set] built, at every
    instant up to its [ExpiresAt]. *)
Theorem l2_set_then_get `{Codec} `{!CodecLaws} `{DurationSeconds}
  {C : Type} `{!cache.KeyDbClient C}
  (t0 now : Z) (key : string) (val data : list Byte.byte) (ttl : TTL)
  (kc : l2.KeyDBCache C) (c1 c2 : C) :
  let entry := setEntry t0 val ttl in
  Marshal entry = Some data →
  cache.ClientSet key data (int64_wrap (Fresh ttl + Stale ttl)) (l2.client kc)
  = (true, c1) →
  cache.ClientGet key c1 = (cache.RedisData data, c2) →
  now ≤ ExpiresAt entry →
  l2.Set_ t0 key val ttl kc = l2.mkKeyDBCache c1 (l2.sink kc) ∧
  l2.Get now key (l2.Set_ t0 key val ttl kc)
  = ((Some entry, true), l2.mkKeyDBCache c2 (l2.sink kc)) ∧
  l2.GetStale now key (l2.Set_ t0 key val ttl kc)
  = ((Some entry, true), l2.mkKeyDBCache c2 (l2.sink kc)).
Proof.
  intros entry Hm Hset Hget He.
  assert (l2.Set_ t0 key val ttl kc = l2.mkKeyDBCache c1 (l2.sink kc)) as ->.
  { unfold l2.Set_. fold entry. rewrite Hm, Hset. reflexivity. }
  split; [reflexivity |].
  unfold l2.Get, l2.GetStale. cbn [l2.client]. rewrite Hget.
  rewrite (unmarshal_marshal entry data Hm). unfold IsExpired.
  destruct (Z.ltb_spec (ExpiresAt entry) now); [lia |]. split; reflexivity.
Qed.

Lemma l2_set_then_get_witness :
  (l2.Get (sample.t0 + 70) sample.key
     (l2.Set_ sample.t0 sample.key sample.value sample.ttl sample.emptyL2)).1
  = (Some sample.entry, true).
Proof.
  pose proof (l2_set_then_get (C := map_client.MapClient)
                sample.t0 (sample.t0 + 70) sample.key sample.value
                (record_codec.encodeEntry
                   (setEntry sample.t0 sample.value sample.ttl))
                sample.ttl sample.emptyL2
                (l2.client sample.holdingL2) (l2.client sample.holdingL2))
    as Hround.
  destruct Hround as (_ & HG & _).
  - reflexivity.
  - vm_compute. reflexivity.
  - vm_compute. reflexivity.
  - vm_compute. discriminate.
  - rewrite HG. reflexivity.
Defined.

(** ** The orchestrator as a whole *)

Section Orchestration.
Context {T : Type} `{!cache.Cache T}.

Lemma promotion_length now key entry p (earlier : list T) :
  length (promotion now key entry p earlier).1 = length earlier.
Proof.
  unfold promotion. destruct entry as [e|]; [| reflexivity].
  destruct (_ && _); [apply length_fmap | reflexivity].
Qed.

Lemma levelLookup_returns stale now key (mc : multi.MultiCache T) :
  returnsKeepingTiers mc (levelLookup stale now key mc).
Proof.
  destruct mc as [cs p].
  destruct (first_hit_split (λ c, (tierMethod stale now key c).1.2) cs)
    as [Hall | (before & hit & after & -> & Hmiss & Hhit)].
  - destruct cs as [| c cs].
    + destruct stale; eexists _, _, _; (split; [reflexivity |]); split; reflexivity.
    + rewrite levelLookup_all_miss by (discriminate || assumption).
      eexists _, _, _. split; [reflexivity |].
      cbn [multi.caches multi.enablePropagation].
      rewrite length_fmap. split; reflexivity.
  - rewrite levelLookup_first_hit by assumption. cbn zeta.
    eexists _, _, _. split; [reflexivity |].
    cbn [multi.caches multi.enablePropagation].
    rewrite !length_app, promotion_length, length_fmap. split; reflexivity.
Qed.

Lemma forRange_returns (f : T → T) (ev : nat → multi.Event)
  (mc : multi.MultiCache T) :
  returnsKeepingTiers mc
    (multi.forRange 0 (length (multi.caches mc))
       (λ i, multi.onTier i (ev i) (λ c, (tt, f c))) mc).
Proof.
  destruct mc as [cs p]. cbn [multi.caches]. rewrite forRange_all.
  eexists _, _, _. split; [reflexivity |].
  cbn [multi.caches multi.enablePropagation]. rewrite length_fmap.
  split; reflexivity.
Qed.

Lemma projection_returns {A B} (g : A → B) (mc : multi.MultiCache T)
  (m : multi.M T A) :
  returnsKeepingTiers mc (m mc) →
  returnsKeepingTiers mc (multi.bind m (λ a, multi.ret (g a)) mc).
Proof.
  intros (a & mc' & trace & Hrun & Hlen & Hflag).
  unfold multi.bind, multi.ret. rewrite Hrun.
  eexists _, _, _. split; [reflexivity |]. split; assumption.
Qed.

End Orchestration.

(** X9: no method of the orchestrator indexes outside the tier list: for
    every tier list, key and backend behaviour each of [GetWithLevel],
    [GetStaleWithLevel], [Get], [GetStale], [Set] and [Delete] returns
    normally, and leaves the number of tiers, which [GetCacheCount]
    reports, and the propagation flag as they were. *)
Theorem orchestrator_returns_and_keeps_tiers {T : Type} `{!cache.Cache T}
  (now : Z) (key : string) (val : list Byte.byte) (ttl : TTL)
  (mc : multi.MultiCache T) :
  returnsKeepingTiers mc (multi.GetWithLevel now key mc) ∧
  returnsKeepingTiers mc (multi.GetStaleWithLevel now key mc) ∧
  returnsKeepingTiers mc (multi.Get now key mc) ∧
  returnsKeepingTiers mc (multi.GetStale now key mc) ∧
  returnsKeepingTiers mc (multi.Set_ now key val ttl mc) ∧
  returnsKeepingTiers mc (multi.Delete key mc) ∧
  multi.GetCacheCount mc = Some (length (multi.caches mc), mc, []).
Proof.
  pose proof (levelLookup_returns false now key mc) as Hget.
  pose proof (levelLookup_returns true now key mc) as Hstale.
  cbn [levelLookup] in Hget, Hstale.
  split; [exact Hget |]. split; [exact Hstale |].
  split; [exact (projection_returns _ mc _ Hget) |].
  split; [exact (projection_returns _ mc _ Hstale) |].
  split; [| split; [| reflexivity]].
  - unfold multi.Set_, multi.bind, multi.numCaches.
    destruct (multi.caches mc) as [| c cs] eqn:Hcs.
    + cbn. eexists _, _, _. split; [reflexivity |]. split; reflexivity.
    + change (length (c :: cs) =? 0)%nat with false. cbn iota.
      rewrite <- Hcs.
      destruct (forRange_returns (cache.Set_ now key val ttl)
                  (λ i, multi.CallSet i key val ttl) mc)
        as (a & mc' & trace & Hrun & Hkeep).
      unfold multi.tierSet. rewrite Hrun.
      eexists _, _, _. split; [reflexivity | exact Hkeep].
  - unfold multi.Delete, multi.bind, multi.numCaches.
    destruct (multi.caches mc) as [| c cs] eqn:Hcs.
    + cbn. eexists _, _, _. split; [reflexivity |]. split; reflexivity.
    + change (length (c :: cs) =? 0)%nat with false. cbn iota.
      rewrite <- Hcs.
      destruct (forRange_returns (cache.Delete key)
                  (λ i, multi.CallDelete i key) mc)
        as (a & mc' & trace & Hrun & Hkeep).
      unfold multi.tierDelete. rewrite Hrun.
      eexists _, _, _. split; [reflexivity | exact Hkeep].
Qed.

Section FirstTierOrchestration.
Context `{Codec} `{DurationSeconds} `{bigcache.Store}.

Abbreviation mkL1 := (@multi.mkMultiCache l1.BigCache).


Lemma l1_read_servable stale now key data entry (bc : l1.BigCache) :
  l1.store bc !! key = Some data →
  Unmarshal data = Some entry →
  now ≤ ExpiresAt entry →
  tierMethod stale now key bc = ((Some entry, true), bc).
Proof.
  intros Hk Hu He.
  destruct stale; cbn [tierMethod cache.Get cache.GetStale l1.BigCache_Cache];
    unfold l1.Get, l1.GetStale; rewrite Hk, Hu; unfold IsExpired;
    (destruct (Z.ltb_spec (ExpiresAt entry) now); [lia | reflexivity]).
Qed.

Lemma levelLookup_first_tier_hit stale now key data entry p
  (c0 : l1.BigCache) (rest : list l1.BigCache) :
  l1.store c0 !! key = Some data →
  Unmarshal data = Some entry →
  now ≤ ExpiresAt entry →
  levelLookup stale now key (mkL1 (c0 :: rest) p)
  = Some ({| Entry := Some entry; Found := true; Level := CacheLevelL1 |},
          mkL1 (c0 :: rest) p, [tierEvent stale key 0]).
Proof.
  intros Hk Hu He.
  pose proof (l1_read_servable stale now key data entry c0 Hk Hu He) as Hread.
  pose proof (levelLookup_first_hit stale now key p [] c0 rest) as Hrun.
  cbn [app] in Hrun. rewrite Hrun; [| constructor | rewrite Hread; reflexivity].
  cbn zeta. rewrite Hread. reflexivity.
Qed.


End FirstTierOrchestration.

(** X10: [Set] through the orchestrator hands the record to the store of
    every tier; when the first tier's store accepts it, that tier holds it,
    and a read at any instant up to the entry's [ExpiresAt] is answered by
    the first tier alone: the result is the written entry at level [L1], no
    other tier is called and nothing is promoted.  The same holds on every
    orchestrator whose first tier holds the record. *)
Theorem set_then_lookup_hits_first_tier `{Codec} `{!CodecLaws} `{DurationSeconds}
  `{bigcache.Store} `{!bigcache.StoreLaws}
  (t0 now : Z) (key : string) (val data : list Byte.byte) (ttl : TTL)
  (p : bool) (c0 : l1.BigCache) (rest : list l1.BigCache) :
  let entry := setEntry t0 val ttl in
  Marshal entry = Some data →
  Z.of_nat (length data) ≤ l1.maxEntrySize c0 →
  (bigcache.Set_ t0 key data (l1.store c0)).1 = true →
  now ≤ ExpiresAt entry →
  ∃ mc1 sets,
    multi.Set_ t0 key val ttl (multi.mkMultiCache (c0 :: rest) p)
    = Some (tt, mc1, sets) ∧
    multi.caches mc1 = l1.Set_ t0 key val ttl <$> c0 :: rest ∧
    l1.store (l1.Set_ t0 key val ttl c0) !! key = Some data ∧
    multi.GetWithLevel now key mc1
    = Some ({| Entry := Some entry; Found := true; Level := CacheLevelL1 |},
            mc1, [multi.CallGet 0 key]) ∧
    multi.GetStaleWithLevel now key mc1
    = Some ({| Entry := Some entry; Found := true; Level := CacheLevelL1 |},
            mc1, [multi.CallGetStale 0 key]) ∧
    (∀ (held : l1.BigCache) (others : list l1.BigCache) (q : bool),
       l1.store held !! key = Some data →
       let mc := multi.mkMultiCache (held :: others) q in
       multi.GetWithLevel now key mc
       = Some ({| Entry := Some entry; Found := true; Level := CacheLevelL1 |},
               mc, [multi.CallGet 0 key]) ∧
       multi.GetStaleWithLevel now key mc
       = Some ({| Entry := Some entry; Found := true; Level := CacheLevelL1 |},
               mc, [multi.CallGetStale 0 key])).
Proof.
  intros entry Hm Hlen Hok He.
  assert (l1.store (l1.Set_ t0 key val ttl c0) !! key = Some data) as Hk
    by (apply l1_Set_stored; assumption).
  assert (Unmarshal data = Some entry) as Hu
    by (apply (unmarshal_marshal entry); exact Hm).
  eexists _, _. split; [| split; [| split; [exact Hk |]]].
  - unfold multi.Set_, multi.bind, multi.numCaches. cbn [multi.caches].
    change (length (c0 :: rest) =? 0)%nat with false. cbn iota.
    unfold multi.tierSet.
    rewrite (forRange_all (cache.Set_ t0 key val ttl)
               (λ i, multi.CallSet i key val ttl) p (c0 :: rest)).
    reflexivity.
  - reflexivity.
  - cbn [fmap list_fmap cache.Set_ l1.BigCache_Cache].
    split; [| split].
    + exact (levelLookup_first_tier_hit false now key data entry p _ _ Hk Hu He).
    + exact (levelLookup_first_tier_hit true now key data entry p _ _ Hk Hu He).
    + intros held others q Hheld. cbn zeta. split.
      * exact (levelLookup_first_tier_hit false now key data entry q held others
                 Hheld Hu He).
      * exact (levelLookup_first_tier_hit true now key data entry q held others
                 Hheld Hu He).
Qed.

Lemma set_then_lookup_hits_first_tier_witness :
  ∃ mc1 sets,
    multi.Set_ sample.t0 sample.key sample.value sample.ttl
      (multi.mkMultiCache [sample.emptyL1; sample.emptyL1] true)
    = Some (tt, mc1, sets) ∧
    multi.GetWithLevel (sample.t0 + 70) sample.key mc1
    = Some ({| Entry := Some sample.entry; Found := true; Level := "L1" |},
            mc1, [multi.CallGet 0 sample.key]).
Proof.
  destruct (set_then_lookup_hits_first_tier sample.t0 (sample.t0 + 70)
              sample.key sample.value
              (record_codec.encodeEntry
                 (setEntry sample.t0 sample.value sample.ttl))
              sample.ttl true sample.emptyL1 [sample.emptyL1])
    as (mc1 & sets & Hset & _ & _ & Hget & _).
  - reflexivity.
  - vm_compute. discriminate.
  - reflexivity.
  - vm_compute. discriminate.
  - exists mc1, sets. split; [exact Hset | exact Hget].
Defined.



(** ** The lifetime of a promoted copy *)

Lemma RemainingTTL_exact (e : CacheEntry) (now : Z) :
  span_fits (StaleAt e - now) →
  span_fits (ExpiresAt e - StaleAt e) →
  RemainingTTL e now
  = mkTTL (Z.max 0 (StaleAt e - now) * Second)
          (Z.max 0 (ExpiresAt e - StaleAt e) * Second).
Proof.
  intros Hf Hs. unfold RemainingTTL.
  rewrite !clamp_seconds_exact by assumption. reflexivity.
Qed.

Lemma promoted_copy_fields `{DurationSeconds} `{!DurationSecondsLaws}
  (e : CacheEntry) (now : Z) :
  clock_ok now →
  span_fits (StaleAt e - now) →
  span_fits (ExpiresAt e - StaleAt e) →
  setEntry now (Data e) (RemainingTTL e now)
  = mkEntry (Data e)
      (Z.max now (StaleAt e) + Z.max 0 (ExpiresAt e - StaleAt e))
      (Z.max now (StaleAt e)) now.
Proof.
  intros Hnow Hf Hs. rewrite RemainingTTL_exact by assumption.
  unfold span_fits in Hf, Hs.
  rewrite setEntry_whole
    by (assumption || (unfold MaxDurationSeconds in *; lia)).
  f_equal; lia.
Qed.

(** X12: the copy that promotion writes, [Set(key, entry.Data,
    RemainingTTL)] at [now], keeps the source's data.  While the source is
    fresh the copy has the source's [StaleAt] and [ExpiresAt]; once the
    source is stale the copy counts as fresh at [now] and expires at
    [now + (ExpiresAt - StaleAt)], later than the source by the time the
    source has been stale. *)
Theorem promoted_copy_lifetime `{DurationSeconds} `{!DurationSecondsLaws}
  (e : CacheEntry) (now : Z) :
  clock_ok now →
  StaleAt e ≤ ExpiresAt e →
  span_fits (StaleAt e - now) →
  span_fits (ExpiresAt e - StaleAt e) →
  let copy := setEntry now (Data e) (RemainingTTL e now) in
  Data copy = Data e ∧
  CreatedAt copy = now ∧
  (now ≤ StaleAt e →
     StaleAt copy = StaleAt e ∧ ExpiresAt copy = ExpiresAt e) ∧
  (StaleAt e < now →
     StaleAt copy = now ∧ IsFresh copy now = true ∧
     ExpiresAt copy = ExpiresAt e + (now - StaleAt e) ∧
     ExpiresAt e < ExpiresAt copy).
Proof.
  intros Hnow Hinv Hf Hs copy. unfold copy.
  rewrite promoted_copy_fields by assumption.
  cbn [Data CreatedAt StaleAt ExpiresAt]. unfold IsFresh. cbn [StaleAt].
  split; [reflexivity |]. split; [reflexivity |]. split.
  - intros Hfresh. lia.
  - intros Hstale. rewrite (Z.max_l now) by lia.
    split; [reflexivity |]. split; [apply Z.leb_refl | lia].
Qed.

Lemma promoted_copy_lifetime_witness :
  let fresh := setEntry (sample.t0 + 10) sample.value
                 (RemainingTTL sample.entry (sample.t0 + 10)) in
  let stale := setEntry (sample.t0 + 70) sample.value
                 (RemainingTTL sample.entry (sample.t0 + 70)) in
  ExpiresAt fresh = sample.t0 + 90 ∧
  ExpiresAt stale = sample.t0 + 90 + 10 ∧
  IsFresh stale (sample.t0 + 70) = true.
Proof.
  intros fresh stale.
  destruct (promoted_copy_lifetime sample.entry (sample.t0 + 10))
    as (_ & _ & Hfresh & _);
    [unfold clock_ok; vm_compute; split; discriminate
    | vm_compute; discriminate
    | vm_compute; split; discriminate ..
    | ].
  destruct (promoted_copy_lifetime sample.entry (sample.t0 + 70))
    as (_ & _ & _ & Hstale);
    [unfold clock_ok; vm_compute; split; discriminate
    | vm_compute; discriminate
    | vm_compute; split; discriminate ..
    | ].
  destruct Hfresh as [_ Hf]; [vm_compute; discriminate |].
  destruct Hstale as (_ & Hs1 & Hs2 & _); [vm_compute; reflexivity |].
  split; [exact Hf |]. split; [exact Hs2 | exact Hs1].
Defined.

Lemma propagates_before_expiry (e : CacheEntry) (now : Z) :
  span_fits (StaleAt e - now) →
  span_fits (ExpiresAt e - StaleAt e) →
  now < ExpiresAt e →
  propagates e now = true.
Proof.
  intros Hf Hs He. unfold propagates, IsExpired.
  rewrite RemainingTTL_exact by assumption. cbn [Fresh Stale].
  destruct (Z.ltb_spec (ExpiresAt e) now); [lia |]. cbn [negb andb].
  destruct (Z.leb_spec (Z.max 0 (StaleAt e - now) * Second) 0) as [Lf |];
    [| reflexivity].
  destruct (Z.leb_spec (Z.max 0 (ExpiresAt e - StaleAt e) * Second) 0) as [Ls |];
    [| reflexivity].
  unfold Second in *. lia.
Qed.

Lemma l1_read_keeps_limit `{Codec} `{DurationSeconds} `{bigcache.Store}
  stale now key
  (bc : l1.BigCache) :
  l1.maxEntrySize (tierMethod stale now key bc).2 = l1.maxEntrySize bc.
Proof.
  destruct stale; cbn [tierMethod cache.Get cache.GetStale l1.BigCache_Cache];
    unfold l1.Get, l1.GetStale;
    (destruct (l1.store bc !! key) as [data|]; [| reflexivity]);
    (destruct (Unmarshal data) as [entry|];
     [destruct (IsExpired entry now) |]); reflexivity.
Qed.

Section Promotion.
Context `{Codec} `{!CodecLaws} `{DurationSeconds} `{!DurationSecondsLaws}.
Context `{bigcache.Store} `{!bigcache.StoreLaws}.

Lemma levelLookup_promotes_to_first_tier stale now key
  (c0 : l1.BigCache) (before : list l1.BigCache) (hit : l1.BigCache)
  (after : list l1.BigCache) (e : CacheEntry) (copyData : list Byte.byte) :
  clock_ok now →
  span_fits (StaleAt e - now) →
  span_fits (ExpiresAt e - StaleAt e) →
  now < ExpiresAt e →
  Forall (λ c, (tierMethod stale now key c).1.2 = false) (c0 :: before) →
  (tierMethod stale now key hit).1 = (Some e, true) →
  Marshal (setEntry now (Data e) (RemainingTTL e now)) = Some copyData →
  Z.of_nat (length copyData) ≤ l1.maxEntrySize c0 →
  (bigcache.Set_ now key copyData
     (l1.store (tierMethod stale now key c0).2)).1 = true →
  ∃ mc' trace,
    levelLookup stale now key
      (multi.mkMultiCache ((c0 :: before) ++ hit :: after) true)
    = Some ({| Entry := Some e; Found := true;
               Level := CacheLevelFromIndex
                          (Z.of_nat (Datatypes.S (length before))) |},
            mc', trace) ∧
    written trace = seq 0 (Datatypes.S (length before)) ∧
    levelLookup stale now key mc'
    = Some ({| Entry := Some (setEntry now (Data e) (RemainingTTL e now));
               Found := true; Level := CacheLevelL1 |},
            mc', [tierEvent stale key 0]).
Proof.
  intros Hnow Hf Hs He Hmiss Hhit Hm Hlen Hok.
  pose proof (levelLookup_first_hit stale now key true (c0 :: before) hit after
                Hmiss) as Hrun.
  rewrite Hhit in Hrun. specialize (Hrun eq_refl). cbn zeta in Hrun.
  rewrite Hhit in Hrun. cbn [fst snd] in Hrun.
  unfold promotion in Hrun.
  rewrite (propagates_before_expiry e now Hf Hs He) in Hrun.
  cbn [length fmap list_fmap Nat.ltb Nat.leb andb fst snd app] in Hrun.
  eexists _, _. split; [exact Hrun |]. split.
  - rewrite written_app, written_reads. cbn [app].
    rewrite length_fmap.
    exact (written_sets key (Data e) (RemainingTTL e now)
             (seq 0 (Datatypes.S (length before)))).
  - set (copy := setEntry now (Data e) (RemainingTTL e now)) in *.
    apply (levelLookup_first_tier_hit stale now key copyData copy).
    + cbn [cache.Set_ l1.BigCache_Cache compose].
      apply l1_Set_stored;
        [exact Hm | rewrite l1_read_keeps_limit; exact Hlen | exact Hok].
    + apply (unmarshal_marshal copy). exact Hm.
    + unfold copy. rewrite promoted_copy_fields by assumption.
      cbn [ExpiresAt]. lia.
Qed.

End Promotion.

(** X13: promotion at work over first-tier backends.  When the tiers before
    the hit miss, the flag is set and the entry is found strictly before its
    [ExpiresAt], a level-aware read writes every earlier tier, and, when the
    record passes the first tier's size guard and its store accepts it, the
    same read repeated at that instant is answered by the first tier at
    level [L1] with the promoted copy. *)
Theorem promotion_fills_first_tier `{Codec} `{!CodecLaws}
  `{DurationSeconds} `{!DurationSecondsLaws}
  `{bigcache.Store} `{!bigcache.StoreLaws}
  (now : Z) (key : string)
  (c0 : l1.BigCache) (before : list l1.BigCache) (hit : l1.BigCache)
  (after : list l1.BigCache) (e : CacheEntry) (copyData : list Byte.byte) :
  clock_ok now →
  span_fits (StaleAt e - now) →
  span_fits (ExpiresAt e - StaleAt e) →
  now < ExpiresAt e →
  Forall (λ c, (l1.Get now key c).1.2 = false) (c0 :: before) →
  (l1.Get now key hit).1 = (Some e, true) →
  Marshal (setEntry now (Data e) (RemainingTTL e now)) = Some copyData →
  Z.of_nat (length copyData) ≤ l1.maxEntrySize c0 →
  (bigcache.Set_ now key copyData (l1.store (l1.Get now key c0).2)).1 = true →
  ∃ mc' trace,
    multi.GetWithLevel now key
      (multi.mkMultiCache ((c0 :: before) ++ hit :: after) true)
    = Some ({| Entry := Some e; Found := true;
               Level := CacheLevelFromIndex
                          (Z.of_nat (Datatypes.S (length before))) |},
            mc', trace) ∧
    written trace = seq 0 (Datatypes.S (length before)) ∧
    multi.GetWithLevel now key mc'
    = Some ({| Entry := Some (setEntry now (Data e) (RemainingTTL e now));
               Found := true; Level := CacheLevelL1 |},
            mc', [multi.CallGet 0 key]).
Proof.
  intros Hnow Hf Hs He Hmiss Hhit Hm Hlen Hok.
  exact (levelLookup_promotes_to_first_tier false now key c0 before hit after
           e copyData Hnow Hf Hs He Hmiss Hhit Hm Hlen Hok).
Qed.

Lemma promotion_fills_first_tier_witness :
  ∃ mc' trace,
    multi.GetWithLevel (sample.t0 + 70) sample.key
      (multi.mkMultiCache [sample.emptyL1; sample.holdingL1] true)
    = Some ({| Entry := Some sample.entry; Found := true; Level := "L2" |},
            mc', trace) ∧
    multi.GetWithLevel (sample.t0 + 70) sample.key mc'
    = Some ({| Entry := Some (mkEntry sample.value (sample.t0 + 100)
                                (sample.t0 + 70) (sample.t0 + 70));
               Found := true; Level := "L1" |},
            mc', [multi.CallGet 0 sample.key]).
Proof.
  destruct (promotion_fills_first_tier (sample.t0 + 70) sample.key
              sample.emptyL1 [] sample.holdingL1 [] sample.entry
              (record_codec.encodeEntry
                 (setEntry (sample.t0 + 70) sample.value
                    (RemainingTTL sample.entry (sample.t0 + 70)))))
    as (mc' & trace & Hfirst & _ & Hsecond).
  - unfold clock_ok. vm_compute. split; discriminate.
  - vm_compute. split; discriminate.
  - vm_compute. split; discriminate.
  - vm_compute. reflexivity.
  - constructor; [vm_compute; reflexivity | constructor].
  - vm_compute. reflexivity.
  - reflexivity.
  - vm_compute. discriminate.
  - reflexivity.
  - exists mc', trace. split; [exact Hfirst | exact Hsecond].
Defined.

(** ** Overwriting at the first tier *)

(** X14: a second [Set] on a key that the store accepts replaces the
    first: the store holds the later record and reads return the later
    entry, or a miss once the store has dropped the key.  When the second
    record is larger than [maxEntrySize] the write is skipped, the contents
    stay as the first [Set] left them and the earlier entry is still the one
    served. *)
Theorem l1_second_set `{Codec} `{!CodecLaws} `{DurationSeconds}
  `{bigcache.Store} `{!bigcache.StoreLaws}
  (t1 t2 now : Z) (key : string) (val1 val2 data1 data2 : list Byte.byte)
  (ttl1 ttl2 : TTL) (bc : l1.BigCache) :
  let first := setEntry t1 val1 ttl1 in
  let second := setEntry t2 val2 ttl2 in
  let once := l1.Set_ t1 key val1 ttl1 bc in
  let twice := l1.Set_ t2 key val2 ttl2 once in
  Marshal first = Some data1 →
  Marshal second = Some data2 →
  Z.of_nat (length data1) ≤ l1.maxEntrySize bc →
  (bigcache.Set_ t1 key data1 (l1.store bc)).1 = true →
  (Z.of_nat (length data2) ≤ l1.maxEntrySize bc →
   (bigcache.Set_ t2 key data2 (l1.store once)).1 = true →
   now ≤ ExpiresAt second →
   l1.store twice !! key = Some data2 ∧
   (l1.Get now key twice).1 = (Some second, true) ∧
   ∀ aged : l1.BigCache,
     l1.store aged ⊆ l1.store twice →
     (l1.Get now key aged).1
     = match l1.store aged !! key with
       | Some _ => (Some second, true)
       | None => (None, false)
       end) ∧
  (l1.maxEntrySize bc < Z.of_nat (length data2) →
   now ≤ ExpiresAt first →
   l1.store twice = l1.store once ∧
   (l1.Get now key twice).1 = (Some first, true) ∧
   ∀ aged : l1.BigCache,
     l1.store aged ⊆ l1.store twice →
     (l1.Get now key aged).1
     = match l1.store aged !! key with
       | Some _ => (Some first, true)
       | None => (None, false)
       end).
Proof.
  intros first second once twice Hm1 Hm2 Hlen1 Hok1.
  assert (l1.store once !! key = Some data1) as Hk1
    by (apply l1_Set_stored; assumption).
  assert (l1.maxEntrySize once = l1.maxEntrySize bc) as Hmax
    by apply l1_Set_keeps_limit.
  split.
  - intros Hlen2 Hok2 He.
    assert (l1.store twice !! key = Some data2) as Hk2
      by (apply l1_Set_stored; [exact Hm2 | rewrite Hmax; exact Hlen2 | exact Hok2]).
    assert (Unmarshal data2 = Some second) as Hu
      by (apply (unmarshal_marshal second); exact Hm2).
    split; [exact Hk2 |]. split.
    + destruct (l1_read_held now key data2 second twice Hk2 Hu He) as [-> _].
      reflexivity.
    + intros aged Hsub.
      exact (proj1 (l1_read_aged now key data2 second twice aged Hk2 Hsub Hu He)).
  - intros Hbig He.
    assert (twice
            = l1.report
                [cache.LogWarn "Cache entry too large, skipping L1 cache" key;
                 cache.RecordCacheError "l1" "entry_too_large"] once) as Htwice.
    { unfold twice, l1.Set_ at 1. fold second. rewrite Hm2, Hmax.
      destruct (Z.ltb_spec (l1.maxEntrySize bc) (Z.of_nat (length data2)));
        [reflexivity | lia]. }
    assert (l1.store twice = l1.store once) as Hstore
      by (rewrite Htwice; reflexivity).
    assert (l1.store twice !! key = Some data1) as Hk2
      by (rewrite Hstore; exact Hk1).
    assert (Unmarshal data1 = Some first) as Hu
      by (apply (unmarshal_marshal first); exact Hm1).
    split; [exact Hstore |]. split.
    + destruct (l1_read_held now key data1 first twice Hk2 Hu He) as [-> _].
      reflexivity.
    + intros aged Hsub.
      exact (proj1 (l1_read_aged now key data1 first twice aged Hk2 Hsub Hu He)).
Qed.

Lemma l1_second_set_witness :
  let roomy := sample.emptyL1 in
  let tight := l1.mkBigCache ∅ 104 [] in
  let long := sample.value ++ sample.value ++ sample.value in
  (l1.Get (sample.t0 + 20) sample.key
     (l1.Set_ (sample.t0 + 5) sample.key long sample.ttl
        (l1.Set_ sample.t0 sample.key sample.value sample.ttl roomy))).1
  = (Some (setEntry (sample.t0 + 5) long sample.ttl), true) ∧
  (l1.Get (sample.t0 + 20) sample.key
     (l1.Set_ (sample.t0 + 5) sample.key long sample.ttl
        (l1.Set_ sample.t0 sample.key sample.value sample.ttl tight))).1
  = (Some sample.entry, true).
Proof.
  intros roomy tight long.
  destruct (l1_second_set sample.t0 (sample.t0 + 5) (sample.t0 + 20) sample.key
              sample.value long
              (record_codec.encodeEntry
                 (setEntry sample.t0 sample.value sample.ttl))
              (record_codec.encodeEntry
                 (setEntry (sample.t0 + 5) long sample.ttl))
              sample.ttl sample.ttl roomy)
    as [Hreplaced _];
    [reflexivity | reflexivity | vm_compute; discriminate | reflexivity |].
  destruct (l1_second_set sample.t0 (sample.t0 + 5) (sample.t0 + 20) sample.key
              sample.value long
              (record_codec.encodeEntry
                 (setEntry sample.t0 sample.value sample.ttl))
              (record_codec.encodeEntry
                 (setEntry (sample.t0 + 5) long sample.ttl))
              sample.ttl sample.ttl tight)
    as [_ Hkept];
    [reflexivity | reflexivity | vm_compute; discriminate | reflexivity |].
  destruct Hreplaced as (_ & Hlater & _);
    [vm_compute; discriminate | reflexivity | vm_compute; discriminate |].
  destruct Hkept as (_ & Hearlier & _);
    [vm_compute; reflexivity | vm_compute; discriminate |].
  split; [exact Hlater | exact Hearlier].
Defined.

(** ** Configuration defaults *)

Lemma orDefault_nonzero (value default : Z) :
  default ≠ 0 → keydb_config.orDefault value default ≠ 0.
Proof.
  intros Hd. unfold keydb_config.orDefault.
  destruct (Z.eqb_spec value 0); assumption.
Qed.

Lemma orDefault_again (value default : Z) :
  default ≠ 0 →
  keydb_config.orDefault (keydb_config.orDefault value default) default
  = keydb_config.orDefault value default.
Proof.
  intros Hd. unfold keydb_config.orDefault.
  destruct (Z.eqb_spec value 0) as [-> | Hv].
  - destruct (Z.eqb_spec default 0); [contradiction | reflexivity].
  - destruct (Z.eqb_spec value 0); [contradiction | reflexivity].
Qed.

Lemma bigcache_defaults_again (b : bigcache_config.BigCacheConfig) :
  bigcache_config.ApplyDefaults (bigcache_config.ApplyDefaults b)
  = bigcache_config.ApplyDefaults b.
Proof.
  destruct b as [en size maxEntry shards]. unfold bigcache_config.ApplyDefaults.
  cbn.
  destruct (Z.eqb_spec size 0); cbn;
    destruct (Z.eqb_spec maxEntry 0); cbn;
    destruct (Z.eqb_spec shards 0); cbn;
    repeat match goal with
      | Hx : ?x ≠ 0 |- context [?x =? 0] =>
          rewrite (proj2 (Z.eqb_neq x 0) Hx); cbn
      end; reflexivity.
Qed.

(** X15: [ApplyDefaults] replaces exactly the zero fields by their defaults
    (100, 1048576 and 256; one second for the three timeouts, 10
    connections, ten seconds idle, one hour and one day), keeps every other
    value of each of the three and seven fields as given, negative ones too,
    leaves no zero and changes nothing when applied again. *)
Theorem apply_defaults_fills_zero_fields
  (b : bigcache_config.BigCacheConfig) (k : keydb_config.KeyDBConfig) :
  let b' := bigcache_config.ApplyDefaults b in
  let k' := keydb_config.ApplyDefaults k in
  bigcache_config.Size b' = (if bigcache_config.Size b =? 0 then 100
                             else bigcache_config.Size b) ∧
  bigcache_config.MaxEntrySize b'
  = (if bigcache_config.MaxEntrySize b =? 0 then 1048576
     else bigcache_config.MaxEntrySize b) ∧
  bigcache_config.Shards b' = (if bigcache_config.Shards b =? 0 then 256
                               else bigcache_config.Shards b) ∧
  bigcache_config.Enabled b' = bigcache_config.Enabled b ∧
  bigcache_config.Size b' ≠ 0 ∧ bigcache_config.MaxEntrySize b' ≠ 0 ∧
  bigcache_config.Shards b' ≠ 0 ∧
  bigcache_config.ApplyDefaults b' = b' ∧
  Forall (λ field, field ≠ 0)
    [keydb_config.ConnectTimeout (keydb_config.Connection k');
     keydb_config.SendTimeout (keydb_config.Connection k');
     keydb_config.ReadTimeout (keydb_config.Connection k');
     keydb_config.PoolSize (keydb_config.Keepalive k');
     keydb_config.MaxIdleTimeout (keydb_config.Keepalive k');
     keydb_config.DefaultTTL (keydb_config.Cache k');
     keydb_config.MaxTTL (keydb_config.Cache k')] ∧
  keydb_config.ReadTimeout (keydb_config.Connection k')
  = (if keydb_config.ReadTimeout (keydb_config.Connection k) =? 0
     then Second else keydb_config.ReadTimeout (keydb_config.Connection k)) ∧
  keydb_config.SendTimeout (keydb_config.Connection k')
  = (if keydb_config.SendTimeout (keydb_config.Connection k) =? 0
     then Second else keydb_config.SendTimeout (keydb_config.Connection k)) ∧
  keydb_config.ConnectTimeout (keydb_config.Connection k')
  = (if keydb_config.ConnectTimeout (keydb_config.Connection k) =? 0
     then Second else keydb_config.ConnectTimeout (keydb_config.Connection k)) ∧
  keydb_config.PoolSize (keydb_config.Keepalive k')
  = (if keydb_config.PoolSize (keydb_config.Keepalive k) =? 0
     then 10 else keydb_config.PoolSize (keydb_config.Keepalive k)) ∧
  keydb_config.MaxIdleTimeout (keydb_config.Keepalive k')
  = (if keydb_config.MaxIdleTimeout (keydb_config.Keepalive k) =? 0
     then 10 * Second
     else keydb_config.MaxIdleTimeout (keydb_config.Keepalive k)) ∧
  keydb_config.DefaultTTL (keydb_config.Cache k')
  = (if keydb_config.DefaultTTL (keydb_config.Cache k) =? 0
     then 3600 * Second else keydb_config.DefaultTTL (keydb_config.Cache k)) ∧
  keydb_config.MaxTTL (keydb_config.Cache k')
  = (if keydb_config.MaxTTL (keydb_config.Cache k) =? 0
     then 86400 * Second else keydb_config.MaxTTL (keydb_config.Cache k)) ∧
  keydb_config.Enabled k' = keydb_config.Enabled k ∧
  keydb_config.ApplyDefaults k' = k'.
Proof.
  intros b' k'. subst b' k'.
  assert (Second ≠ 0 ∧ 1000 * Millisecond = Second ∧ 10000 * Millisecond ≠ 0
          ∧ 3600 * Second ≠ 0 ∧ 86400 * Second ≠ 0) as (HS & HM & HI & HD & HX)
    by (vm_compute; repeat split; discriminate).
  split; [| split; [| split; [| split]]].
  1-4: destruct b as [en size maxEntry shards];
       unfold bigcache_config.ApplyDefaults; cbn;
       destruct (size =? 0); cbn; destruct (maxEntry =? 0); cbn;
       destruct (shards =? 0); reflexivity.
  split; [| split; [| split]].
  1-3: destruct b as [en size maxEntry shards];
       unfold bigcache_config.ApplyDefaults; cbn;
       destruct (Z.eqb_spec size 0); cbn;
       destruct (Z.eqb_spec maxEntry 0); cbn;
       destruct (Z.eqb_spec shards 0); cbn;
       first [assumption | discriminate].
  split; [apply bigcache_defaults_again |].
  unfold keydb_config.ApplyDefaults.
  cbn [keydb_config.Connection keydb_config.Keepalive keydb_config.Cache
       keydb_config.Enabled keydb_config.ConnectTimeout keydb_config.SendTimeout
       keydb_config.ReadTimeout keydb_config.PoolSize
       keydb_config.MaxIdleTimeout keydb_config.DefaultTTL keydb_config.MaxTTL].
  rewrite HM.
  split.
  { repeat (apply Forall_cons; split); [.. | constructor];
      apply orDefault_nonzero; first [assumption | discriminate]. }
  do 8 (split; [reflexivity |]).
  rewrite !orDefault_again by first [assumption | discriminate]. reflexivity.
Qed.

(** ** A disabled cache *)


